(** * xbench transaction generator: shallow embedding and verification

    Sources embedded here:
    - [cmd/generate/cli/contract.go]: the [contract] and [tx] subcommands,
      their process fan-out ([spawn]), the single-process path ([generate])
      and the worker pool ([Consumer]);
    - [cases/contract/short_content.go]: the [short_content] generator
      constructor ([NewShortContent]).

    Go's [int] is taken as the 64-bit two's complement integer (amd64 and
    arm64 builds); [float32] arithmetic is IEEE 754 binary32 with
    round-to-nearest-even. *)

From Stdlib Require Import ZArith Lia List Bool String Ascii.
From Stdlib Require Import Decimal DecimalString DecimalZ DecimalPos.
From stdpp Require Import base option list strings gmap.

Local Open Scope Z_scope.

(** ** Go's 64-bit [int] *)
Module GoInt.

Definition min_int : Z := - 2 ^ 63.
Definition max_int : Z := 2 ^ 63 - 1.

Definition in_range (z : Z) : Prop := min_int <= z <= max_int.
Definition in_rangeb (z : Z) : bool := (min_int <=? z) && (z <=? max_int).

(** Two's complement wrap-around of a mathematical result. *)
Definition wrap (z : Z) : Z := (z + 2 ^ 63) mod 2 ^ 64 - 2 ^ 63.

Definition add (a b : Z) : Z := wrap (a + b).
Definition mul (a b : Z) : Z := wrap (a * b).

(** [a / b] on [int]: truncated toward zero; a zero divisor is a run-time
    panic, rendered as [None]. *)
Definition quot (a b : Z) : option Z :=
  if b =? 0 then None else Some (wrap (Z.quot a b)).

Lemma in_rangeb_spec z : in_rangeb z = true <-> in_range z.
Proof. unfold in_rangeb, in_range. rewrite andb_true_iff. lia. Qed.

Lemma wrap_in_range z : in_range z -> wrap z = z.
Proof.
  unfold in_range, min_int, max_int, wrap. intros H.
  rewrite Z.mod_small by lia. lia.
Qed.

Lemma wrap_range z : in_range (wrap z).
Proof.
  unfold in_range, min_int, max_int, wrap.
  pose proof (Z.mod_pos_bound (z + 2 ^ 63) (2 ^ 64) ltac:(lia)). lia.
Qed.

Lemma quot_nonneg a b :
  0 <= a -> in_range a -> 0 < b -> quot a b = Some (a / b).
Proof.
  intros Ha Hr Hb. unfold quot.
  destruct (Z.eqb_spec b 0) as [->|_]; [lia|].
  rewrite Z.quot_div_nonneg by lia.
  rewrite wrap_in_range; [done|].
  unfold in_range, min_int, max_int in *.
  pose proof (Z.div_pos a b Ha Hb).
  pose proof (Z.div_le_upper_bound a b (2 ^ 63 - 1) Hb ltac:(nia)). lia.
Qed.

(** Two results less than [2 ^ 64] apart wrap to different values. *)
Lemma wrap_inj x y : Z.abs (x - y) < 2 ^ 64 -> wrap x = wrap y -> x = y.
Proof.
  unfold wrap. intros Hd Hw.
  pose proof (Z.div_mod (x + 2 ^ 63) (2 ^ 64) ltac:(lia)) as Hx.
  pose proof (Z.div_mod (y + 2 ^ 63) (2 ^ 64) ltac:(lia)) as Hy.
  assert ((x + 2 ^ 63) mod 2 ^ 64 = (y + 2 ^ 63) mod 2 ^ 64) as Hm by lia.
  rewrite Hm in Hx. lia.
Qed.

End GoInt.

(** ** IEEE 754 binary32 on the values the program computes

    A finite binary32 value is [fm * 2 ^ fe] with [|fm| < 2 ^ 24]. The
    program only forms [float32(n)] for a 64-bit integer [n] and its
    product with the constant [1.1]: magnitudes are [0] or within
    [[1, 2^64]], far from the subnormal and overflow thresholds, so the
    exponent range is not represented. *)
Module Float32.

Record t : Type := mk { fm : Z; fe : Z }.

(** [rne n k]: the integer nearest to [n / 2 ^ k], ties to even. *)
Definition rne (n k : Z) : Z :=
  let d := 2 ^ k in
  let q := n / d in
  let r := n mod d in
  if 2 * r <? d then q
  else if d <? 2 * r then q + 1
  else if Z.even q then q else q + 1.

(** Rounding of the non-negative real [n * 2 ^ s] to 24 significant bits. *)
Definition round_pos (n s : Z) : t :=
  if n <? 2 ^ 24 then mk n s
  else let k := Z.log2 n - 23 in mk (rne n k) (s + k).

(** Rounding of the real [n * 2 ^ s]; the format is sign-symmetric. *)
Definition round (n s : Z) : t :=
  if 0 <=? n then round_pos n s
  else let r := round_pos (- n) s in mk (- fm r) (fe r).

(** [float32(n)] for an integer [n]. *)
Definition of_int (n : Z) : t := round n 0.

(** [a * b]: the exact product, rounded once. *)
Definition mul (a b : t) : t := round (fm a * fm b) (fe a + fe b).

(** The constant [1.1] converted to [float32]: [0x3F8CCCCD]. *)
Definition c1_1 : t := mk 9227469 (-23).

(** [int(f)]: truncation toward zero. Go leaves the result of converting
    a value outside the range of [int] to the implementation: [None]. *)
Definition to_int (f : t) : option Z :=
  let v := if 0 <=? fe f then fm f * 2 ^ fe f
           else Z.quot (fm f) (2 ^ (- fe f)) in
  if GoInt.in_rangeb v then Some v else None.

(** [int(float32(q) * 1.1)] *)
Definition scale_1_1 (q : Z) : option Z := to_int (mul (of_int q) c1_1).

(** [c1_1] is the binary32 value nearest to 11/10: it is within half a
    unit in the last place ([2 ^ -24]) of it. *)
Lemma c1_1_nearest :
  2 ^ 23 <= fm c1_1 < 2 ^ 24 /\
  2 * Z.abs (10 * fm c1_1 - 11 * 2 ^ 23) <= 10.
Proof. unfold c1_1; simpl fm. lia. Qed.

Lemma rne_lower n k A : 0 <= k -> A * 2 ^ k <= n -> A <= rne n k.
Proof.
  intros Hk HA. unfold rne.
  assert (0 < 2 ^ k) as Hd by (apply Z.pow_pos_nonneg; lia).
  assert (A <= n / 2 ^ k) by (apply Z.div_le_lower_bound; lia).
  repeat case_match; lia.
Qed.

Lemma rne_upper n k B : 0 <= k -> 2 * n < (2 * B - 1) * 2 ^ k -> rne n k < B.
Proof.
  intros Hk HB. unfold rne.
  assert (0 < 2 ^ k) as Hd by (apply Z.pow_pos_nonneg; lia).
  pose proof (Z.div_mod n (2 ^ k) ltac:(lia)) as Hdm.
  pose proof (Z.mod_pos_bound n (2 ^ k) Hd) as Hm.
  set (q := n / 2 ^ k) in *. set (r := n mod 2 ^ k) in *.
  repeat case_match; rewrite ?Z.ltb_lt, ?Z.ltb_ge in *; nia.
Qed.

Lemma of_int_small q : 0 <= q < 2 ^ 24 -> of_int q = mk q 0.
Proof.
  intros Hq. unfold of_int, round, round_pos.
  destruct (Z.leb_spec 0 q); [|lia].
  destruct (Z.ltb_spec q (2 ^ 24)); [done|lia].
Qed.

(** The exact product [q * c1_1] is [11 q / 10] plus [q / (5 * 2 ^ 23)]. *)
Lemma c1_1_product q : 10 * (q * fm c1_1) = 11 * q * 2 ^ 23 + 2 * q.
Proof. unfold c1_1; simpl fm. lia. Qed.

Lemma div_between m d a : 0 < d -> a * d <= m < (a + 1) * d -> m / d = a.
Proof.
  intros Hd [Hlo Hhi]. symmetry. apply (Z.div_unique m d a (m - a * d)); lia.
Qed.

(** Below [3 * 2 ^ 19] the rounding error of the product (at most
    [2 ^ -4]) and the excess of [c1_1] over 11/10 (at most [3/80]) stay
    below the [1/10] that separates [11 q / 10] from the next integer. *)
Lemma scale_1_1_below q :
  0 <= q < 3 * 2 ^ 19 -> scale_1_1 q = Some (11 * q / 10).
Proof.
  intros Hq. unfold scale_1_1, mul.
  rewrite of_int_small by lia. cbn [fm fe].
  change (0 + fe c1_1) with (-23).
  pose proof (c1_1_product q) as Hprod.
  set (n := q * fm c1_1) in *.
  pose proof (Z.div_mod (11 * q) 10 ltac:(lia)) as Hdm.
  pose proof (Z.mod_pos_bound (11 * q) 10 ltac:(lia)) as Hr.
  set (a := 11 * q / 10) in *.
  set (r := (11 * q) mod 10) in *. clearbody n a r.
  assert (0 <= n) as Hn0 by lia.
  assert (a * 2 ^ 23 <= n) as Hlo by lia.
  assert (GoInt.in_rangeb a = true) as Hrange.
  { apply GoInt.in_rangeb_spec. unfold GoInt.in_range, GoInt.min_int, GoInt.max_int. lia. }
  unfold round. destruct (Z.leb_spec 0 n); [|lia].
  unfold round_pos. destruct (Z.ltb_spec n (2 ^ 24)) as [Hsmall|Hbig].
  - unfold to_int; cbn [fm fe].
    change (0 <=? -23) with false; cbv iota. change (- -23) with 23.
    rewrite Z.quot_div_nonneg by lia.
    rewrite (div_between n (2 ^ 23) a) by lia. by rewrite Hrange.
  - set (k := Z.log2 n - 23).
    assert (1 <= k <= 20) as Hk.
    { assert (24 <= Z.log2 n) by (apply Z.log2_le_pow2; lia).
      assert (Z.log2 n < 44) by (apply Z.log2_lt_pow2; lia). lia. }
    assert (2 ^ (23 - k) * 2 ^ k = 2 ^ 23) as Hpp
      by (rewrite <- Z.pow_add_r by lia; f_equal; lia).
    assert (0 < 2 ^ k <= 2 ^ 20) as Hp
      by (split; [apply Z.pow_pos_nonneg; lia | apply Z.pow_le_mono_r; lia]).
    assert (0 < 2 ^ (23 - k)) as Hp' by (apply Z.pow_pos_nonneg; lia).
    assert (a * 2 ^ (23 - k) <= rne n k) as Hm1.
    { apply rne_lower; [lia|]. rewrite <- Z.mul_assoc, Hpp. exact Hlo. }
    assert (rne n k < (a + 1) * 2 ^ (23 - k)) as Hm2.
    { apply rne_upper; [lia|].
      rewrite Z.mul_sub_distr_r, <- !Z.mul_assoc, Hpp. lia. }
    unfold to_int; cbn [fm fe].
    destruct (Z.leb_spec 0 (-23 + k)); [lia|].
    replace (- (-23 + k)) with (23 - k) by lia.
    rewrite Z.quot_div_nonneg by nia.
    rewrite (div_between (rne n k) (2 ^ (23 - k)) a) by lia. by rewrite Hrange.
Qed.

(** [int(float32(q) * 1.1)] is [floor(11 q / 10)] for every
    [0 <= q <= 1572868]; see [scale_1_1_first_excess] for the next [q]. *)
Lemma scale_1_1_exact q :
  0 <= q < 1572869 -> scale_1_1 q = Some (11 * q / 10).
Proof.
  intros Hq. destruct (Z_lt_le_dec q (3 * 2 ^ 19)) as [Hlt|Hge].
  - apply scale_1_1_below. lia.
  - assert (q = 1572864 \/ q = 1572865 \/ q = 1572866 \/ q = 1572867
            \/ q = 1572868) as Hcases by lia.
    destruct Hcases as [-> | [-> | [-> | [-> | ->]]]]; vm_compute; reflexivity.
Qed.

(** At [q = 1572869] the rounded product reaches the next integer:
    [1572869 * 1.1 = 1730155.9] but the code computes [1730156]. *)
Lemma scale_1_1_first_excess :
  scale_1_1 1572869 = Some 1730156 /\ 11 * 1572869 / 10 = 1730155.
Proof. split; vm_compute; reflexivity. Qed.

End Float32.

(** ** The [strconv] and [fmt] conversions the program calls *)
Module Strconv.

Local Open Scope string_scope.
Local Open Scope Z_scope.

(** [strconv.Itoa] and [strconv.FormatInt(_, 10)]: decimal digits, with a
    leading [-] for negative numbers. *)
Definition Itoa (z : Z) : string := NilZero.string_of_int (Z.to_int z).

(** [strconv.ParseUint(s, 10, 64)]: a non-empty string of decimal digits
    whose value fits in 64 bits; no sign is accepted. *)
Definition ParseUint (s : string) : option Z :=
  match NilZero.uint_of_string s with
  | Some d => let v := Z.of_uint d in if v <? 2 ^ 64 then Some v else None
  | None => None
  end.

(** With base 0 a leading [0] followed by further characters selects
    another base ([0x], [0o], [0b], or octal). *)
Definition plain_decimal (s : string) : bool :=
  match s with
  | String "0" (String _ _) => false
  | _ => true
  end.

(** [strconv.ParseInt(s, 0, 64)], which the flag library applies to the
    value of an [int] flag: an optional sign, then the digits. The
    decimal forms are modelled; the prefixed forms and underscores are
    not ([None]). *)
Definition ParseInt (s : string) : option Z :=
  let '(neg, digits) :=
    match s with
    | String "-" r => (true, r)
    | String "+" r => (false, r)
    | _ => (false, s)
    end in
  if plain_decimal digits then
    match ParseUint digits with
    | Some v =>
        let z := if neg then - v else v in
        if GoInt.in_rangeb z then Some z else None
    | None => None
    end
  else None.

Fixpoint zeros (n : nat) : string :=
  match n with
  | O => ""
  | S n => String "0" (zeros n)
  end.

Definition zero_pad (w : nat) (s : string) : string :=
  zeros (w - String.length s) +:+ s.

(** [fmt.Sprintf("%04d", z)]: zero padding to a minimal width of 4, the
    sign counting for one column. *)
Definition Sprintf_04d (z : Z) : string :=
  match Z.to_int z with
  | Pos d => zero_pad 4 (NilZero.string_of_uint d)
  | Neg d => String "-" (zero_pad 3 (NilZero.string_of_uint d))
  end.

Example Itoa_200000 : Itoa 200000 = "200000".
Proof. reflexivity. Qed.
Example Itoa_neg : Itoa (-42) = "-42".
Proof. reflexivity. Qed.
Example ParseUint_1024 : ParseUint "1024" = Some 1024.
Proof. reflexivity. Qed.
Example ParseUint_signed : ParseUint "-1" = None /\ ParseUint "+1" = None.
Proof. split; reflexivity. Qed.
Example ParseUint_empty : ParseUint "" = None.
Proof. reflexivity. Qed.
Example ParseUint_overflow : ParseUint "18446744073709551616" = None.
Proof. reflexivity. Qed.
Example Sprintf_04d_42 : Sprintf_04d 42 = "0042".
Proof. reflexivity. Qed.
Example Sprintf_04d_12345 : Sprintf_04d 12345 = "12345".
Proof. reflexivity. Qed.
Example Sprintf_04d_neg : Sprintf_04d (-5) = "-005".
Proof. reflexivity. Qed.

(** The digits of a positive number do not start with [0]. *)
Lemma to_uint_no_leading_zero p d : Pos.to_uint p <> D0 d.
Proof.
  intros Hd.
  pose proof (DecimalPos.Unsigned.to_of (Pos.to_uint p)) as Hnorm.
  rewrite DecimalPos.Unsigned.of_to in Hnorm. simpl in Hnorm.
  rewrite Hd in Hnorm. rewrite DecimalFacts.unorm_D0 in Hnorm.
  unfold unorm in Hnorm.
  destruct (nzhead d) as [|u|u|u|u|u|u|u|u|u|u] eqn:Hnz; try discriminate Hnorm.
  - injection Hnorm as ->.
    by apply (DecimalPos.Unsigned.to_uint_nonzero p).
  - by apply (DecimalFacts.nzhead_nonzero d u).
Qed.

Lemma ParseUint_digits p :
  ParseUint (NilZero.string_of_uint (Pos.to_uint p)) =
  if Z.pos p <? 2 ^ 64 then Some (Z.pos p) else None.
Proof.
  unfold ParseUint.
  rewrite NilZero.usu by apply DecimalPos.Unsigned.to_uint_nonnil.
  unfold Z.of_uint. rewrite DecimalPos.Unsigned.of_to. reflexivity.
Qed.

Lemma digits_head p :
  exists a r, NilZero.string_of_uint (Pos.to_uint p) = String a r /\
              a <> "-"%char /\ a <> "+"%char /\ a <> "0"%char.
Proof.
  pose proof (to_uint_no_leading_zero p) as Hz.
  pose proof (DecimalPos.Unsigned.to_uint_nonnil p) as Hn.
  destruct (Pos.to_uint p) as [|d|d|d|d|d|d|d|d|d|d]; simpl;
    try (by destruct Hn); try (by destruct (Hz d));
    eexists _, _; (split; [reflexivity| by repeat split]).
Qed.

(** Reading back what [Itoa] printed. *)
Lemma ParseInt_Itoa z : GoInt.in_range z -> ParseInt (Itoa z) = Some z.
Proof.
  intros Hr. pose proof Hr as Hb. apply GoInt.in_rangeb_spec in Hb.
  unfold GoInt.in_range, GoInt.min_int, GoInt.max_int in Hr.
  destruct z as [|p|p]; [reflexivity| |].
  - unfold Itoa; simpl Z.to_int; simpl NilZero.string_of_int.
    destruct (digits_head p) as (a & r & Heq & Hm & Hp & H0).
    unfold ParseInt.
    assert ((match NilZero.string_of_uint (Pos.to_uint p) with
             | String "-" r0 => (true, r0)
             | String "+" r0 => (false, r0)
             | _ => (false, NilZero.string_of_uint (Pos.to_uint p))
             end) = (false, NilZero.string_of_uint (Pos.to_uint p))) as ->.
    { rewrite Heq.
      destruct a as [[|] [|] [|] [|] [|] [|] [|] [|]]; try reflexivity;
        congruence. }
    assert (plain_decimal (NilZero.string_of_uint (Pos.to_uint p)) = true) as ->.
    { rewrite Heq.
      destruct a as [[|] [|] [|] [|] [|] [|] [|] [|]]; try reflexivity;
        congruence. }
    rewrite ParseUint_digits.
    destruct (Z.ltb_spec (Z.pos p) (2 ^ 64)); [|lia]. by rewrite Hb.
  - unfold Itoa; simpl Z.to_int; simpl NilZero.string_of_int.
    destruct (digits_head p) as (a & r & Heq & Hm & Hp & H0).
    unfold ParseInt.
    assert (plain_decimal (NilZero.string_of_uint (Pos.to_uint p)) = true) as ->.
    { rewrite Heq.
      destruct a as [[|] [|] [|] [|] [|] [|] [|] [|]]; try reflexivity;
        congruence. }
    rewrite ParseUint_digits.
    destruct (Z.ltb_spec (Z.pos p) (2 ^ 64)); [|lia].
    change (- Z.pos p) with (Z.neg p). by rewrite Hb.
Qed.

Lemma zeros_length n : String.length (zeros n) = n.
Proof. induction n; simpl; congruence. Qed.

Lemma append_length (a b : string) :
  String.length (a +:+ b) = (String.length a + String.length b)%nat.
Proof. induction a as [|c a IH]; simpl; [done | by rewrite IH]. Qed.

Lemma zero_pad_length w s :
  String.length (zero_pad w s) = Nat.max w (String.length s).
Proof. unfold zero_pad. rewrite append_length, zeros_length. lia. Qed.

(** Reading a zero-padded number back: the inverse of [Sprintf_04d],
    used to show that distinct numbers get distinct texts. *)
Definition read_padded (s : string) : option Z :=
  match s with
  | EmptyString => None
  | String a r =>
      if Ascii.eqb a "-"
      then (fun d => - Z.of_uint d) <$> NilEmpty.uint_of_string r
      else Z.of_uint <$> NilEmpty.uint_of_string s
  end.

Lemma uint_of_string_zeros n s :
  Z.of_uint <$> NilEmpty.uint_of_string (zeros n +:+ s) =
  Z.of_uint <$> NilEmpty.uint_of_string s.
Proof.
  induction n as [|n IH]; [reflexivity|].
  rewrite <- IH. change (zeros (S n) +:+ s) with (String "0" (zeros n +:+ s)).
  cbn [NilEmpty.uint_of_string].
  by destruct (NilEmpty.uint_of_string (zeros n +:+ s)).
Qed.

Lemma uint_of_string_digits p :
  Z.of_uint <$> NilEmpty.uint_of_string (NilZero.string_of_uint (Pos.to_uint p))
  = Some (Z.pos p).
Proof.
  pose proof (DecimalPos.Unsigned.to_uint_nonnil p) as Hn.
  assert (NilZero.string_of_uint (Pos.to_uint p) =
          NilEmpty.string_of_uint (Pos.to_uint p)) as ->
    by (destruct (Pos.to_uint p); [by destruct Hn|reflexivity..]).
  rewrite NilEmpty.usu. simpl. unfold Z.of_uint.
  by rewrite DecimalPos.Unsigned.of_to.
Qed.

Lemma zero_pad_head w p :
  exists a r, zero_pad w (NilZero.string_of_uint (Pos.to_uint p)) = String a r /\
              a <> "-"%char.
Proof.
  destruct (digits_head p) as (a & r & Heq & Hm & _).
  unfold zero_pad. rewrite Heq.
  destruct (w - String.length (String a r))%nat as [|k]; simpl.
  - by exists a, r.
  - eexists _, _. by split.
Qed.

Lemma read_padded_Sprintf z : read_padded (Sprintf_04d z) = Some z.
Proof.
  destruct z as [|p|p]; [reflexivity| |]; unfold Sprintf_04d; simpl Z.to_int.
  - destruct (zero_pad_head 4 p) as (a & r & Heq & Hm).
    unfold read_padded. rewrite Heq.
    apply Ascii.eqb_neq in Hm. rewrite Hm, <- Heq.
    unfold zero_pad. by rewrite uint_of_string_zeros, uint_of_string_digits.
  - unfold read_padded. rewrite Ascii.eqb_refl. unfold zero_pad.
    pose proof (uint_of_string_zeros
      (3 - String.length (NilZero.string_of_uint (Pos.to_uint p)))
      (NilZero.string_of_uint (Pos.to_uint p))) as Hz.
    rewrite uint_of_string_digits in Hz.
    destruct (NilEmpty.uint_of_string _) as [d|]; simpl in *; [|done].
    by injection Hz as ->.
Qed.

Lemma Sprintf_04d_inj a b : Sprintf_04d a = Sprintf_04d b -> a = b.
Proof.
  intros H. apply (f_equal read_padded) in H.
  rewrite !read_padded_Sprintf in H. congruence.
Qed.

Lemma append_inj_r (p a b : string) : p +:+ a = p +:+ b -> a = b.
Proof. induction p; simpl; [done|]. intros [= H]. auto. Qed.


End Strconv.

(** ** Go's [(value, error)] results *)
Inductive result (E A : Type) : Type :=
| Ok (a : A)
| Err (e : E).

Arguments Ok {E A} a.
Arguments Err {E A} e.

Definition is_ok {E A} (r : result E A) : bool :=
  match r with Ok _ => true | Err _ => false end.

Definition ok_value {E A} (r : result E A) : option A :=
  match r with Ok a => Some a | Err _ => None end.

(** ** [cases/contract/short_content.go] *)
Module Contracts.

Local Open Scope string_scope.
Local Open Scope Z_scope.

(** The [Args] mapping is the only field of [ContractConfig] the
    constructor reads. *)
Record ContractConfig : Type := { Args : gmap string string }.

Inductive error : Type :=
| ErrLengthNotExist              (* "params error: short content length not exist" *)
| ErrLengthSyntax (lengthStr : string). (* "params error: %v, lenght=%s" *)

Section ShortContent.

(** The SDK client handle, stored and never inspected by the constructor. *)
Variable XClient : Type.

Record shortContent : Type := {
  length : Z;
  client : XClient;
  config : ContractConfig
}.

Definition NewShortContent (config : ContractConfig) (client : XClient)
  : result error shortContent :=
  match Args config !! "length" with
  | None => Err ErrLengthNotExist
  | Some lengthStr =>
      match Strconv.ParseUint lengthStr with
      | None => Err (ErrLengthSyntax lengthStr)
      | Some n =>
          Ok {| length := if (n <=? 0) || (3000 <? n) then 64
                           else GoInt.wrap n;
                 client := client;
                 config := config |}
      end
  end.

End ShortContent.

Arguments NewShortContent {XClient} config client.
Arguments length {XClient} s.
Arguments client {XClient} s.
Arguments config {XClient} s.

(** The arguments [Invoke] passes on (lines 57-62): the arguments it
    is given are replaced. [lib.RandBytes] draws from the randomness in
    the world; the title is built before the content. *)
Section Invoke.

Context {XClient World : Type}.
Variable RandBytes : World -> Z -> World * string.

Definition invoke_args (t : shortContent XClient) (address : string)
    (args : gmap string string) (w : World) : World * gmap string string :=
  let '(w1, salt) := RandBytes w 16 in
  let '(w2, content) := RandBytes w1 (length t) in
  (w2, list_to_map
         [ ("user_id", "xuperos");
           ("topic", address);
           ("title", "title_" +:+ Strconv.Itoa (length t) +:+ "_" +:+ salt);
           ("content", content) ]).

(** The arguments [Deploy] passes on (lines 45-47). *)
Definition deploy_args (address : string) (args : gmap string string)
  : gmap string string :=
  {[ "creator" := address ]}.

End Invoke.

Definition with_length (s : string) : ContractConfig :=
  {| Args := {[ "length" := s ]} |}.

Example NewShortContent_1024 :
  length <$> ok_value (NewShortContent (with_length "1024") tt) = Some 1024.
Proof. reflexivity. Qed.

End Contracts.

(** ** [cmd/generate/cli/contract.go] *)
Module Cli.

Local Open Scope string_scope.
Local Open Scope list_scope.
Local Open Scope Z_scope.

(** An [error] is carried as its message. *)
Definition error : Type := string.

(** [cases.Config] with the fields the commands fill in. *)
Record Config : Type := {
  Host : string;
  Total : Z;
  Concurrency : Z;
  Args : gmap string string
}.

(** How an operating-system process stands: [log.Fatalf] ends it with
    status 1, an unrecovered [panic] with status 2. *)
Inductive proc_status : Type :=
| Alive
| Exited (code : Z).

(** What a call leaves its caller with. *)
Inductive outcome : Type :=
| RetNil
| RetErr (e : error)
| Exit (code : Z)
| Unspecified.

Section Engine.

(** [Tx] stands for [proto.Message]; [World] is the state of everything
    the program talks to (the generator's client and accounts, its
    randomness, the file system, child processes). Every call to a
    collaborator reads and updates it, in the order the calls happen. *)
Context {Tx World : Type}.

(** The [cases.Generator] interface. *)
Record Generator : Type := {
  Init : World -> World * option error;
  Generate : World -> Z -> World * result error Tx
}.

(** What the [consume] callback does to its caller: it returns [nil],
    returns an error, or ends the process from inside ([log.Fatalf]). *)
Inductive consumed : Type :=
| ConsumeNil
| ConsumeErr (e : error)
| ConsumeFatal (msg : string).

(** [type Consume func(i int, tx proto.Message) error]; the callback may
    write to the shard files it closes over. *)
Definition Consume : Type :=
  Z -> Tx -> World -> list (list Tx) -> World * list (list Tx) * consumed.

(** One goroutine of [Consumer]: its local [count] and whether its
    function has returned. *)
Record worker : Type := { count : Z; returned : bool }.

(** The process while [Consumer] runs: the shard files in encoder order,
    the workers, the shared counter [inc] and the log. *)
Record engine : Type := {
  world : World;
  shards : list (list Tx);
  workers : list worker;
  inc : Z;
  logs : list string;
  proc : proc_status
}.

(** Lines 326-331: every 1000 transactions of a worker are added to the
    shared counter, and every multiple of 100000 of it is logged. *)
Definition progress (count inc : Z) (logs : list string) : Z * list string :=
  if Z.rem count 1000 =? 0 then
    let newInc := GoInt.add inc 1000 in
    (newInc,
     if Z.rem newInc 100000 =? 0
     then logs ++ ["total=" +:+ Strconv.Itoa newInc]
     else logs)
  else (inc, logs).

(** One pass of worker [i] through the body of its [for] loop. *)
Definition iteration (total : Z) (g : Generator) (consume : Consume)
    (i : nat) (w : worker) (e : engine) : engine :=
  let '(w1, r) := Generate g (world e) (Z.of_nat i) in
  match r with
  | Err err =>
      {| world := w1; shards := shards e; workers := workers e;
         inc := inc e;
         logs := logs e ++ ["generate tx error: " +:+ err];
         proc := Exited 1 |}
  | Ok tx =>
      let '(w2, sh, c) := consume (Z.of_nat i) tx w1 (shards e) in
      match c with
      | ConsumeFatal msg =>
          {| world := w2; shards := sh; workers := workers e;
             inc := inc e; logs := logs e ++ [msg]; proc := Exited 1 |}
      | ConsumeErr _ =>
          {| world := w2; shards := sh;
             workers := <[i := {| count := count w; returned := true |}]> (workers e);
             inc := inc e; logs := logs e; proc := Alive |}
      | ConsumeNil =>
          let c := GoInt.add (count w) 1 in
          let '(inc', logs') := progress c (inc e) (logs e) in
          {| world := w2; shards := sh;
             workers := <[i := {| count := c; returned := total <=? c |}]> (workers e);
             inc := inc'; logs := logs'; proc := Alive |}
      end
  end.

(** The scheduler lets worker [i] run one iteration, if the process is
    alive and that worker has not returned. *)
Definition step (total : Z) (g : Generator) (consume : Consume)
    (i : nat) (e : engine) : option engine :=
  match proc e, workers e !! i with
  | Alive, Some w =>
      if returned w then None else Some (iteration total g consume i w e)
  | _, _ => None
  end.

(** An interleaving of the workers is the list of the scheduler's
    choices; a choice that cannot run is skipped. *)
Fixpoint run (total : Z) (g : Generator) (consume : Consume)
    (sched : list nat) (e : engine) : engine :=
  match sched with
  | [] => e
  | i :: rest => run total g consume rest (default e (step total g consume i e))
  end.

Definition start (concurrency : Z) (w : World) (sh : list (list Tx))
    (lg : list string) : engine :=
  {| world := w; shards := sh;
     workers := replicate (Z.to_nat concurrency) {| count := 0; returned := false |};
     inc := 0; logs := lg; proc := Alive |}.

(** [wg.Wait()] is over: every worker has returned, or the process is gone. *)
Definition settled (e : engine) : bool :=
  match proc e with
  | Alive => forallb returned (workers e)
  | Exited _ => true
  end.

(** [Consumer(total, concurrency, generator, consume)] under the
    interleaving [sched]. A negative [concurrency] makes [wg.Add] panic.
    [None]: the schedule ends while [wg.Wait()] still blocks. *)
Definition Consumer (total concurrency : Z) (g : Generator) (consume : Consume)
    (sched : list nat) (w : World) (sh : list (list Tx)) (lg : list string)
  : option engine :=
  if concurrency <? 0 then
    Some {| world := w; shards := sh; workers := []; inc := 0;
            logs := lg ++ ["panic: sync: negative WaitGroup counter"];
            proc := Exited 2 |}
  else
    let e := run total g consume sched (start concurrency w sh lg) in
    if settled e then Some e else None.

(** The schedule that runs worker 0 to its end, then worker 1, ... *)
Definition one_by_one (total concurrency : Z) : list nat :=
  flat_map (fun i => replicate (Z.to_nat (Z.max 1 total)) i)
           (seq 0 (Z.to_nat concurrency)).

End Engine.

Arguments Generator : clear implicits.
Arguments Consume : clear implicits.
Arguments engine : clear implicits.

(** *** The single-process path and the process fan-out *)

(** [t.child*t.concurrency+i] *)
Definition shard_index (child concurrency i : Z) : Z :=
  GoInt.add (GoInt.mul child concurrency) i.

(** The values of [i] in [for i := 0; i < n; i++]. *)
Definition upto (n : Z) : list Z := Z.of_nat <$> seq 0 (Z.to_nat n).

(** The shard indices of the process with child number [child], and
    the names [fmt.Sprintf(prefix + "%04d", index)] of its files. *)
Definition shard_indices (child concurrency : Z) : list Z :=
  shard_index child concurrency <$> upto concurrency.

Definition shard_names (prefix : string) (child concurrency : Z) : list string :=
  (fun k => prefix +:+ Strconv.Sprintf_04d k) <$> shard_indices child concurrency.

(** [int(float32(t.total/t.concurrency) * 1.1)] *)
Inductive quota_result : Type :=
| Quota (n : Z)
| DivideByZero
| OutOfRange.

Definition per_worker_quota (total concurrency : Z) : quota_result :=
  match GoInt.quot total concurrency with
  | None => DivideByZero
  | Some q =>
      match Float32.scale_1_1 q with
      | None => OutOfRange
      | Some n => Quota n
      end
  end.

(** What the parent records about its children. *)
Inductive event : Type :=
| EvSplit (host amount : string) (count : Z)
| EvRun (child : nat) (argv : list string)
| EvDone (child : nat) (err : option error).

(** The goroutine of one child: made by [spawn], inside [cmd.Run()],
    or past it. *)
Inductive stage : Type :=
| Created
| Started
| Finished.

Definition is_finished (s : stage) : bool :=
  match s with Finished => true | _ => false end.

Definition is_split (ev : event) : bool :=
  match ev with EvSplit _ _ _ => true | _ => false end.

(** The children launched so far, in launch order, and those whose
    [cmd.Run()] returned an error. *)
Definition launched (tr : list event) : list nat :=
  omap (fun ev => match ev with EvRun i _ => Some i | _ => None end) tr.



Section Process.

Context {Tx World : Type}.

(** [encoders[i].Encode(tx)]: the error of marshalling [tx] and writing
    its line to shard [i], if any. *)
Variable Encode : World -> Z -> Tx -> World * option error.
(** [os.Create(filepath.Join(dir, name))] *)
Variable Create : World -> string -> string -> World * option error.
(** [os.Getpid()] *)
Variable Getpid : World -> Z.
(** [cmd.Run()] for the child started with [argv]: [nil] exactly when the
    child ran and exited with status zero. *)
Variable CmdRun : World -> list string -> World * option error.

(** The callback [generate] hands to [Consumer] (lines 142-148). A
    failed [Encode] adds no record to the shard. *)
Definition encode_consume : Consume Tx World :=
  fun i tx w sh =>
    let '(w', r) := Encode w i tx in
    match r with
    | None => (w', alter (fun l => l ++ [tx]) (Z.to_nat i) sh, ConsumeNil)
    | Some e => (w', sh, ConsumeFatal ("write tx error: " +:+ e))
    end.

(** The loop of lines 131-138, stopping at the first file that cannot
    be created. *)
Fixpoint create_files (dir : string) (names : list string) (w : World)
  : World * list string * option error :=
  match names with
  | [] => (w, [], None)
  | name :: rest =>
      let '(w1, r) := Create w dir name in
      match r with
      | Some e => (w1, [], Some e)
      | None =>
          let '(w2, made, err) := create_files dir rest w1 in
          (w2, name :: made, err)
      end
  end.

(** What a run of [generate] leaves: the shard files it created in
    [dir], in encoder order, with their records; the log; the way the
    call ended. *)
Record run_result : Type := {
  after : World;
  dir : string;
  files : list string;
  contents : list (list Tx);
  printed : list string;
  ret : outcome
}.

Definition stopped (w : World) (output : string) (made : list string)
    (lg : list string) (r : outcome) : option run_result :=
  Some {| after := w; dir := output; files := made;
          contents := (fun _ => []) <$> made; printed := lg; ret := r |}.

(** The body shared by [ContractCommand.generate] and
    [TransactionCommand.generate]: they differ in the configuration,
    the constructor ([ctor] is its result), the word [what] of the
    error messages and the [prefix] of the file names. *)
Definition generate_with (what prefix : string)
    (ctor : result error (Generator Tx World))
    (total concurrency child : Z) (output : string)
    (sched : list nat) (w : World) : option run_result :=
  match ctor with
  | Err e => stopped w output [] [] (RetErr ("new " +:+ what +:+ " error: " +:+ e))
  | Ok g =>
      let '(w1, r) := Init g w in
      match r with
      | Some e =>
          stopped w1 output [] [] (RetErr ("init " +:+ what +:+ " error: " +:+ e))
      | None =>
          if concurrency <? 0 then
            stopped w1 output []
              ["panic: runtime error: makeslice: len out of range"] (Exit 2)
          else
            let names := shard_names prefix child concurrency in
            let '(w2, made, err) := create_files output names w1 in
            match err with
            | Some e =>
                stopped w2 output made [] (RetErr ("open output file error: " +:+ e))
            | None =>
                match per_worker_quota total concurrency with
                | DivideByZero =>
                    stopped w2 output made
                      ["panic: runtime error: integer divide by zero"] (Exit 2)
                | OutOfRange => stopped w2 output made [] Unspecified
                | Quota n =>
                    e ← Consumer n concurrency g encode_consume sched w2
                          ((fun _ => []) <$> made) [];
                    Some {| after := world e; dir := output; files := made;
                            contents := shards e;
                            printed :=
                              match proc e with
                              | Alive =>
                                  logs e ++
                                  ["child=" +:+ Strconv.Itoa child +:+ ", pid="
                                    +:+ Strconv.Itoa (Getpid (world e))]
                              | Exited _ => logs e
                              end;
                            ret := match proc e with
                                   | Alive => RetNil
                                   | Exited c => Exit c
                                   end |}
                end
            end
      end
  end.

(** The parent while it waits for its children ([wg.Wait()]). *)
Record orchestrator : Type := {
  o_world : World;
  stages : list stage;
  trace : list event;
  o_proc : proc_status
}.

(** The goroutine of child [i] moves on: it enters [cmd.Run()], which
    launches the child, or [cmd.Run()] returns and an error makes it
    [panic], which ends the parent. *)
Definition orch_step (cmds : list (list string)) (i : nat) (o : orchestrator)
  : option orchestrator :=
  match o_proc o, stages o !! i, cmds !! i with
  | Alive, Some Created, Some argv =>
      Some {| o_world := o_world o; stages := <[i := Started]> (stages o);
              trace := trace o ++ [EvRun i argv]; o_proc := Alive |}
  | Alive, Some Started, Some argv =>
      let '(w', r) := CmdRun (o_world o) argv in
      Some {| o_world := w'; stages := <[i := Finished]> (stages o);
              trace := trace o ++ [EvDone i r];
              o_proc := match r with None => Alive | Some _ => Exited 2 end |}
  | _, _, _ => None
  end.

Fixpoint orch_run (cmds : list (list string)) (sched : list nat)
    (o : orchestrator) : orchestrator :=
  match sched with
  | [] => o
  | i :: rest => orch_run cmds rest (default o (orch_step cmds i o))
  end.

(** The loop over [t.spawn(wg, i)] followed by [wg.Wait()], under the
    interleaving [sched] of the children's goroutines. *)
Definition orchestrate (cmds : list (list string)) (sched : list nat)
    (w : World) (tr : list event) : orchestrator :=
  orch_run cmds sched
    {| o_world := w; stages := replicate (List.length cmds) Created;
       trace := tr; o_proc := Alive |}.

(** How the parent ends: [RunE] returns [nil] once every child is
    done; [None] while [wg.Wait()] blocks. *)
Definition orch_outcome (o : orchestrator) : option outcome :=
  match o_proc o with
  | Exited c => Some (Exit c)
  | Alive => if forallb is_finished (stages o) then Some RetNil else None
  end.

(** What [RunE] did: it generated in this process, it failed before
    spawning, or it spawned children. *)
Inductive ran : Type :=
| Generated (r : option run_result)
| Failed (w : World) (tr : list event) (e : error)
| Spawned (o : orchestrator).

Definition ran_trace (r : ran) : list event :=
  match r with
  | Generated _ => []
  | Failed _ tr _ => tr
  | Spawned o => trace o
  end.

Definition ran_outcome (r : ran) : option outcome :=
  match r with
  | Generated g => ret <$> g
  | Failed _ _ e => Some (RetErr e)
  | Spawned o => orch_outcome o
  end.

End Process.

(** *** The [contract] subcommand *)
Module ContractCommand.

Record t : Type := {
  host : string;
  total : Z;
  concurrency : Z;
  output : string;
  process : Z;
  child : Z;
  length : Z
}.

(** The flag defaults of [addFlags]. *)
Definition defaults : t :=
  {| host := "127.0.0.1:37101"; total := 1000000; concurrency := 20;
     output := "./data/evidence"; process := 1; child := 0; length := 200 |}.

(** The configuration [generate] builds (lines 101-118). *)
Definition config (c : t) : Config :=
  {| Host := "127.0.0.1:37101";
     Total := total c;
     Concurrency := concurrency c;
     Args := list_to_map
       [ ("contract_name", "short_content");
         ("contract_account", "XC1111111111111111@xuper");
         ("length", "1024");
         ("code_path", "data/contract/short_content.wasm");
         ("module_name", "wasm");
         ("method_name", "storeShortContent");
         ("amount", "999999");
         ("user_id", "user_id");
         ("title", "title");
         ("topic", "topic");
         ("content", "content") ] |}.

(** The arguments [spawn] gives child [child] after [os.Args[0]]
    (lines 79-87). [None]: the division panics. *)
Definition spawn (c : t) (child : Z) : option (list string) :=
  q ← GoInt.quot (total c) (process c);
  Some [ "contract";
         "--total"; Strconv.Itoa q;
         "--length"; Strconv.Itoa (length c);
         "--output"; output c;
         "--concurrency"; Strconv.Itoa (concurrency c);
         "--process"; "1";
         "--child"; Strconv.Itoa child ].

(** How the flag library fills the fields from the arguments of a child:
    each flag of [addFlags], by its name or its shorthand, followed by
    its value. This is the argument syntax [spawn] emits; the forms
    [--name=value] and grouped shorthands are not modelled. *)
Definition set_flag (name value : string) (c : t) : option t :=
  if String.eqb name "--host" then
    Some {| host := value; total := total c; concurrency := concurrency c;
            output := output c; process := process c; child := child c;
            length := length c |}
  else if String.eqb name "--total" || String.eqb name "-t" then
    v ← Strconv.ParseInt value;
    Some {| host := host c; total := v; concurrency := concurrency c;
            output := output c; process := process c; child := child c;
            length := length c |}
  else if String.eqb name "--concurrency" || String.eqb name "-c" then
    v ← Strconv.ParseInt value;
    Some {| host := host c; total := total c; concurrency := v;
            output := output c; process := process c; child := child c;
            length := length c |}
  else if String.eqb name "--output" || String.eqb name "-o" then
    Some {| host := host c; total := total c; concurrency := concurrency c;
            output := value; process := process c; child := child c;
            length := length c |}
  else if String.eqb name "--length" || String.eqb name "-l" then
    v ← Strconv.ParseInt value;
    Some {| host := host c; total := total c; concurrency := concurrency c;
            output := output c; process := process c; child := child c;
            length := v |}
  else if String.eqb name "--process" then
    v ← Strconv.ParseInt value;
    Some {| host := host c; total := total c; concurrency := concurrency c;
            output := output c; process := v; child := child c;
            length := length c |}
  else if String.eqb name "--child" then
    v ← Strconv.ParseInt value;
    Some {| host := host c; total := total c; concurrency := concurrency c;
            output := output c; process := process c; child := v;
            length := length c |}
  else None.

Fixpoint parse_flags (args : list string) (c : t) : option t :=
  match args with
  | [] => Some c
  | name :: value :: rest => c' ← set_flag name value c; parse_flags rest c'
  | [_] => None
  end.

(** The command a child process runs with, from its arguments. *)
Definition invoked (argv : list string) : option t :=
  match argv with
  | sub :: rest => if String.eqb sub "contract" then parse_flags rest defaults else None
  | [] => None
  end.

(** Every [int] field holds a 64-bit value. *)
Definition well_formed (c : t) : Prop :=
  GoInt.in_range (total c) /\ GoInt.in_range (concurrency c) /\
  GoInt.in_range (process c) /\ GoInt.in_range (child c) /\
  GoInt.in_range (length c).

Definition with_host (h : string) (c : t) : t :=
  {| host := h; total := total c; concurrency := concurrency c;
     output := output c; process := process c; child := child c;
     length := length c |}.

Definition with_length (l : Z) (c : t) : t :=
  {| host := host c; total := total c; concurrency := concurrency c;
     output := output c; process := process c; child := child c;
     length := l |}.


Section Run.

Context {Tx World : Type}.
(** [cases.NewContract] *)
Variable NewContract : Config -> result error (Generator Tx World).
Variable Encode : World -> Z -> Tx -> World * option error.
Variable Create : World -> string -> string -> World * option error.
Variable Getpid : World -> Z.
Variable CmdRun : World -> list string -> World * option error.

Definition generate (c : t) (sched : list nat) (w : World)
  : option (run_result (Tx:=Tx) (World:=World)) :=
  generate_with Encode Create Getpid "evidence" "short_content.dat."
    (NewContract (config c))
    (total c) (concurrency c) (child c) (output c) sched w.

(** [RunE] (lines 48-61) *)
Definition RunE (c : t) (sched : list nat) (w : World)
  : ran (Tx:=Tx) (World:=World) :=
  if process c =? 1 then Generated (generate c sched w)
  else
    match mapM (spawn c) (upto (process c)) with
    | Some cmds => Spawned (orchestrate CmdRun cmds sched w [])
    | None =>
        Spawned {| o_world := w; stages := []; trace := [];
                   o_proc := Exited 2 |}
    end.

End Run.

End ContractCommand.

(** *** The [tx] subcommand *)
Module TransactionCommand.

Record t : Type := {
  total : Z;
  concurrency : Z;
  output : string;
  process : Z;
  child : Z;
  host : string;
  amount : string
}.

Definition defaults : t :=
  {| host := ""; amount := "100000000"; total := 1000000; concurrency := 20;
     output := "../data/transaction"; process := 1; child := 0 |}.

Definition config (c : t) : Config :=
  {| Host := host c;
     Total := total c;
     Concurrency := concurrency c;
     Args := {[ "amount" := amount c ]} |}.

Definition spawn (c : t) (child : Z) : option (list string) :=
  q ← GoInt.quot (total c) (process c);
  Some [ "tx";
         "--host"; host c;
         "--total"; Strconv.Itoa q;
         "--output"; output c;
         "--concurrency"; Strconv.Itoa (concurrency c);
         "--process"; "1";
         "--child"; Strconv.Itoa child ].

(** How the flag library fills the fields from the arguments of a child:
    each flag of [addFlags] (lines 230-240), by its name or its
    shorthand, followed by its value. *)
Definition set_flag (name value : string) (c : t) : option t :=
  if String.eqb name "--host" then
    Some {| total := total c; concurrency := concurrency c; output := output c;
            process := process c; child := child c; host := value;
            amount := amount c |}
  else if String.eqb name "--amount" then
    Some {| total := total c; concurrency := concurrency c; output := output c;
            process := process c; child := child c; host := host c;
            amount := value |}
  else if String.eqb name "--total" || String.eqb name "-t" then
    v ← Strconv.ParseInt value;
    Some {| total := v; concurrency := concurrency c; output := output c;
            process := process c; child := child c; host := host c;
            amount := amount c |}
  else if String.eqb name "--concurrency" || String.eqb name "-c" then
    v ← Strconv.ParseInt value;
    Some {| total := total c; concurrency := v; output := output c;
            process := process c; child := child c; host := host c;
            amount := amount c |}
  else if String.eqb name "--output" || String.eqb name "-o" then
    Some {| total := total c; concurrency := concurrency c; output := value;
            process := process c; child := child c; host := host c;
            amount := amount c |}
  else if String.eqb name "--process" then
    v ← Strconv.ParseInt value;
    Some {| total := total c; concurrency := concurrency c; output := output c;
            process := v; child := child c; host := host c;
            amount := amount c |}
  else if String.eqb name "--child" then
    v ← Strconv.ParseInt value;
    Some {| total := total c; concurrency := concurrency c; output := output c;
            process := process c; child := v; host := host c;
            amount := amount c |}
  else None.

Fixpoint parse_flags (args : list string) (c : t) : option t :=
  match args with
  | [] => Some c
  | name :: value :: rest => c' ← set_flag name value c; parse_flags rest c'
  | [_] => None
  end.

(** The command a child process runs with, from its arguments. *)
Definition invoked (argv : list string) : option t :=
  match argv with
  | sub :: rest => if String.eqb sub "tx" then parse_flags rest defaults else None
  | [] => None
  end.

Section Run.

Context {Tx World Account : Type}.
(** [cases.NewTransaction] *)
Variable NewTransaction : Config -> result error (Generator Tx World).
(** [lib.SplitTx] and the source account [lib.Bank] *)
Variable SplitTx : World -> string -> Account -> string -> Z -> World * option error.
Variable Bank : Account.
Variable Encode : World -> Z -> Tx -> World * option error.
Variable Create : World -> string -> string -> World * option error.
Variable Getpid : World -> Z.
Variable CmdRun : World -> list string -> World * option error.

Definition generate (c : t) (sched : list nat) (w : World)
  : option (run_result (Tx:=Tx) (World:=World)) :=
  generate_with Encode Create Getpid "transaction" "transaction.dat."
    (NewTransaction (config c))
    (total c) (concurrency c) (child c) (output c) sched w.

(** [RunE] (lines 207-224) *)
Definition RunE (c : t) (sched : list nat) (w : World)
  : ran (Tx:=Tx) (World:=World) :=
  if process c =? 1 then Generated (generate c sched w)
  else
    let count := GoInt.mul (concurrency c) (process c) in
    let split := EvSplit (host c) (amount c) count in
    let '(w1, r) := SplitTx w (host c) Bank (amount c) count in
    match r with
    | Some e => Failed w1 [split] e
    | None =>
        match mapM (spawn c) (upto (process c)) with
        | Some cmds => Spawned (orchestrate CmdRun cmds sched w1 [split])
        | None =>
            Spawned {| o_world := w1; stages := []; trace := [split];
                       o_proc := Exited 2 |}
        end
    end.

End Run.

End TransactionCommand.

End Cli.

(** * Facts about the worker pool *)
Module Pool.

Import Cli.
Local Open Scope Z_scope.

Section Counts.

Context {Tx World : Type}.
Variables (total : Z) (g : Generator Tx World) (consume : Consume Tx World).

(** [total] is a Go [int]. *)
Hypothesis total_int : total <= GoInt.max_int.

(** A worker's count stays within [max 1 total], strictly below it
    while the worker has not returned. *)
Definition worker_ok (w : worker) : Prop :=
  0 <= count w <= Z.max 1 total /\
  (returned w = false -> count w < Z.max 1 total).

Definition counts_ok (e : engine Tx World) : Prop := Forall worker_ok (workers e).

Lemma next_count w :
  worker_ok w -> returned w = false -> GoInt.add (count w) 1 = count w + 1.
Proof.
  intros [Hc Hlt] Hr. specialize (Hlt Hr). unfold GoInt.add.
  apply GoInt.wrap_in_range.
  unfold GoInt.in_range, GoInt.min_int, GoInt.max_int in *. lia.
Qed.

Lemma next_worker_ok w :
  worker_ok w -> returned w = false ->
  worker_ok {| count := count w + 1; returned := total <=? count w + 1 |}.
Proof.
  intros [Hc Hlt] Hr. specialize (Hlt Hr). split; simpl; [lia|].
  intros Hle. apply Z.leb_gt in Hle. lia.
Qed.

Lemma start_counts_ok n w sh lg : counts_ok (start n w sh lg).
Proof.
  unfold counts_ok, start; simpl. apply Forall_replicate.
  split; simpl; [lia|]. intros _. lia.
Qed.

Lemma iteration_counts_ok e i w :
  counts_ok e -> workers e !! i = Some w -> returned w = false ->
  counts_ok (iteration total g consume i w e).
Proof.
  intros He Hw Hr. unfold counts_ok in *.
  pose proof (proj1 (Forall_lookup _ _) He i w Hw) as Hwok.
  unfold iteration.
  destruct (Generate g (world e) (Z.of_nat i)) as [w1 [tx|err]]; [|exact He].
  destruct (consume (Z.of_nat i) tx w1 (shards e)) as [[w2 sh] [|err|msg]];
    [|simpl|exact He].
  - rewrite (next_count w Hwok Hr).
    destruct (progress (count w + 1) (inc e) (logs e)) as [inc' logs']. simpl.
    apply Forall_insert; [exact He|]. by apply next_worker_ok.
  - apply Forall_insert; [exact He|]. destruct Hwok as [Hc _].
    split; simpl; [lia|done].
Qed.

Lemma step_counts_ok e e' i :
  counts_ok e -> step total g consume i e = Some e' -> counts_ok e'.
Proof.
  unfold step. intros He Hs.
  destruct (proc e); [|done].
  destruct (workers e !! i) as [w|] eqn:Hw; [|done].
  destruct (returned w) eqn:Hr; [done|].
  injection Hs as <-. by apply iteration_counts_ok.
Qed.

Lemma run_counts_ok sched e :
  counts_ok e -> counts_ok (run total g consume sched e).
Proof.
  revert e. induction sched as [|i rest IH]; intros e He; simpl; [done|].
  apply IH. destruct (step total g consume i e) as [e'|] eqn:Hs; simpl; [|done].
  by eapply step_counts_ok.
Qed.

(** Whatever the generator and the callback do, and however the
    workers interleave, no worker counts beyond [max 1 total]. *)
Lemma count_bound concurrency sched w0 sh lg i w :
  workers (run total g consume sched (start concurrency w0 sh lg)) !! i = Some w ->
  0 <= count w <= Z.max 1 total.
Proof.
  intros Hw.
  pose proof (run_counts_ok sched _ (start_counts_ok concurrency w0 sh lg)) as H.
  exact (proj1 (proj1 (Forall_lookup _ _) H i w Hw)).
Qed.

(** Once the process has exited no worker runs any more. *)
Lemma run_exited sched (e : engine Tx World) code :
  proc e = Exited code -> run total g consume sched e = e.
Proof.
  intros He. induction sched as [|i rest IH]; simpl; [done|].
  unfold step. by rewrite He.
Qed.

End Counts.

Section Shards.

Context {Tx World : Type}.
Variables (total : Z) (g : Generator Tx World).
Variable Encode : World -> Z -> Tx -> World * option error.
Hypothesis total_int : total <= GoInt.max_int.

Let consume := encode_consume Encode.

(** With the callback of [generate], shard [i] holds one record per
    counted iteration of worker [i], and a worker that has returned has
    counted at least once and at least [total] times. *)
Definition shard_ok (e : engine Tx World) (i : nat) (w : worker) : Prop :=
  exists sh, shards e !! i = Some sh /\ Z.of_nat (List.length sh) = count w.

Definition done_ok (w : worker) : Prop :=
  returned w = true -> total <= count w /\ 1 <= count w.

Record pool_ok (e : engine Tx World) : Prop := {
  pool_counts : counts_ok total e;
  pool_shards : forall i w, workers e !! i = Some w -> shard_ok e i w;
  pool_done : Forall done_ok (workers e);
  pool_sizes : List.length (shards e) = List.length (workers e)
}.

Lemma start_pool_ok n w0 lg :
  pool_ok (start n w0 (replicate (Z.to_nat n) []) lg).
Proof.
  split.
  - apply start_counts_ok.
  - intros i w Hw. unfold start in *; simpl in *.
    apply lookup_replicate in Hw as [-> Hi].
    exists []. split; [by apply lookup_replicate|done].
  - unfold start; simpl. apply Forall_replicate. by intros ?.
  - unfold start; simpl. by rewrite !length_replicate.
Qed.

Lemma iteration_pool_ok e i w :
  pool_ok e -> workers e !! i = Some w -> returned w = false ->
  pool_ok (iteration total g consume i w e).
Proof.
  intros He Hw Hr.
  pose proof (iteration_counts_ok total g consume total_int e i w
                (pool_counts e He) Hw Hr) as Hcounts.
  pose proof (proj1 (Forall_lookup _ _) (pool_counts e He) i w Hw) as Hwok.
  destruct (pool_shards e He i w Hw) as (shi & Hshi & Hlen).
  unfold iteration, consume, encode_consume in *.
  destruct (Generate g (world e) (Z.of_nat i)) as [w1 [tx|err]];
    [|by destruct He; split].
  destruct (Encode w1 (Z.of_nat i) tx) as [w2 [err|]];
    [by destruct He; split|].
  rewrite (next_count total total_int w Hwok Hr) in *.
  destruct (progress (count w + 1) (inc e) (logs e)) as [inc' logs'].
  split; [exact Hcounts|..]; simpl.
  - intros j wj Hj. unfold shard_ok; simpl. rewrite Nat2Z.id.
    destruct (decide (i = j)) as [<-|Hne].
    + rewrite list_lookup_insert_eq in Hj by (eapply lookup_lt_Some, Hw).
      injection Hj as <-. simpl.
      exists (shi ++ [tx]). rewrite list_lookup_alter_eq, Hshi. split; [done|].
      rewrite length_app; simpl. lia.
    + rewrite list_lookup_insert_ne in Hj by done.
      rewrite list_lookup_alter_ne by done.
      exact (pool_shards e He j wj Hj).
  - apply Forall_insert; [exact (pool_done e He)|].
    intros Hd; simpl in *. apply Z.leb_le in Hd. destruct Hwok as [Hc _]. lia.
  - rewrite Nat2Z.id, length_alter, length_insert. exact (pool_sizes e He).
Qed.

Lemma step_pool_ok e e' i :
  pool_ok e -> step total g consume i e = Some e' -> pool_ok e'.
Proof.
  unfold step. intros He Hs.
  destruct (proc e); [|done].
  destruct (workers e !! i) as [w|] eqn:Hw; [|done].
  destruct (returned w) eqn:Hr; [done|].
  injection Hs as <-. by apply iteration_pool_ok.
Qed.

Lemma run_pool_ok sched e : pool_ok e -> pool_ok (run total g consume sched e).
Proof.
  revert e. induction sched as [|i rest IH]; intros e He; simpl; [done|].
  apply IH. destruct (step total g consume i e) as [e'|] eqn:Hs; simpl; [|done].
  by eapply step_pool_ok.
Qed.

Lemma step_workers_length e e' i :
  step total g consume i e = Some e' ->
  List.length (workers e') = List.length (workers e).
Proof.
  unfold step. intros Hs.
  destruct (proc e); [|done].
  destruct (workers e !! i) as [w|] eqn:Hw; [|done].
  destruct (returned w) eqn:Hr; [done|].
  injection Hs as <-. unfold iteration, consume, encode_consume.
  destruct (Generate g (world e) (Z.of_nat i)) as [w1 [tx|err]]; [|done].
  destruct (Encode w1 (Z.of_nat i) tx) as [w2 [err|]]; [done|].
  destruct (progress _ (inc e) (logs e)) as [inc' logs']; simpl.
  by rewrite length_insert.
Qed.

Lemma run_workers_length sched e :
  List.length (workers (run total g consume sched e)) = List.length (workers e).
Proof.
  revert e. induction sched as [|i rest IH]; intros e; simpl; [done|].
  rewrite IH. destruct (step total g consume i e) as [e'|] eqn:Hs; simpl; [|done].
  by eapply step_workers_length.
Qed.

(** Once every worker has returned, each shard holds exactly
    [max 1 total] records. *)
Lemma settled_shards e i :
  pool_ok e -> proc e = Alive -> settled e = true ->
  (i < List.length (workers e))%nat ->
  exists sh, shards e !! i = Some sh /\
             Z.of_nat (List.length sh) = Z.max 1 total.
Proof.
  intros He Ha Hs Hi. unfold settled in Hs. rewrite Ha in Hs.
  destruct (lookup_lt_is_Some_2 _ _ Hi) as [w Hw].
  rewrite forallb_forall in Hs.
  assert (returned w = true) as Hr
    by (apply Hs, list_elem_of_In, list_elem_of_lookup; eauto).
  destruct (pool_shards e He i w Hw) as (sh & Hsh & Hlen).
  pose proof (proj1 (Forall_lookup _ _) (pool_counts e He) i w Hw) as [Hc _].
  pose proof (proj1 (Forall_lookup _ _) (pool_done e He) i w Hw Hr) as Hd.
  exists sh. split; [done|]. lia.
Qed.

End Shards.

Section Reliable.

Context {Tx World : Type}.
Variables (total : Z) (g : Generator Tx World).
Variable Encode : World -> Z -> Tx -> World * option error.
Hypothesis total_int : total <= GoInt.max_int.

(** The collaborators of a run in which nothing goes wrong. *)
Definition never_fails : Prop := forall w i, is_ok (Generate g w i).2 = true.
Definition always_encodes : Prop := forall w i tx, (Encode w i tx).2 = None.

Hypothesis gen_ok : never_fails.
Hypothesis enc_ok : always_encodes.

Let consume := encode_consume Encode.

Definition fresh : worker := {| count := 0; returned := false |}.
Definition finished : worker := {| count := Z.max 1 total; returned := true |}.

Lemma iteration_reliable e i w :
  worker_ok total w -> returned w = false ->
  proc (iteration total g consume i w e) = Alive /\
  workers (iteration total g consume i w e) =
    <[i := {| count := count w + 1; returned := total <=? count w + 1 |}]> (workers e).
Proof.
  intros Hwok Hr. unfold iteration, consume, encode_consume.
  pose proof (gen_ok (world e) (Z.of_nat i)) as Hg.
  destruct (Generate g (world e) (Z.of_nat i)) as [w1 [tx|err]]; [|done].
  pose proof (enc_ok w1 (Z.of_nat i) tx) as He.
  destruct (Encode w1 (Z.of_nat i) tx) as [w2 [err|]]; [done|].
  rewrite (next_count total total_int w Hwok Hr).
  by destruct (progress (count w + 1) (inc e) (logs e)) as [inc' logs'].
Qed.

Lemma step_alive e e' i :
  counts_ok total e -> step total g consume i e = Some e' -> proc e' = Alive.
Proof.
  unfold step. intros He Hs.
  destruct (proc e); [|done].
  destruct (workers e !! i) as [w|] eqn:Hw; [|done].
  destruct (returned w) eqn:Hr; [done|].
  injection Hs as <-.
  pose proof (proj1 (Forall_lookup _ _) He i w Hw) as Hwok.
  by apply iteration_reliable.
Qed.

Lemma run_alive sched e :
  counts_ok total e -> proc e = Alive -> proc (run total g consume sched e) = Alive.
Proof.
  revert e. induction sched as [|i rest IH]; intros e He Ha; simpl; [done|].
  destruct (step total g consume i e) as [e'|] eqn:Hs; simpl.
  - apply IH; [by eapply step_counts_ok | by eapply step_alive].
  - by apply IH.
Qed.

Lemma run_app s1 s2 (e : engine Tx World) :
  run total g consume (s1 ++ s2) e = run total g consume s2 (run total g consume s1 e).
Proof. revert e. induction s1 as [|i s1 IH]; intros e; simpl; [done|apply IH]. Qed.

Lemma step_running (e : engine Tx World) i w :
  proc e = Alive -> workers e !! i = Some w -> returned w = false ->
  step total g consume i e = Some (iteration total g consume i w e).
Proof. intros Ha Hw Hr. unfold step. by rewrite Ha, Hw, Hr. Qed.

Lemma run_cons_step i rest (e e1 : engine Tx World) :
  step total g consume i e = Some e1 ->
  run total g consume (i :: rest) e = run total g consume rest e1.
Proof. intros Hs. simpl. by rewrite Hs. Qed.

(** A worker scheduled alone for as many iterations as it has left ends
    returned, with count [max 1 total]; the others are not touched. *)
Lemma run_one_worker k e i w :
  counts_ok total e -> proc e = Alive ->
  workers e !! i = Some w -> returned w = false ->
  count w + Z.of_nat (S k) = Z.max 1 total ->
  workers (run total g consume (replicate (S k) i) e) = <[i := finished]> (workers e).
Proof.
  revert e w. induction k as [|k IH]; intros e w He Ha Hw Hr Hk;
    pose proof (proj1 (Forall_lookup _ _) He i w Hw) as Hwok;
    destruct (iteration_reliable e i w Hwok Hr) as [Ha' Hws];
    rewrite replicate_S, (run_cons_step i _ e _ (step_running e i w Ha Hw Hr)).
  - simpl. rewrite Hws.
    unfold finished. f_equal. f_equal; [lia|]. apply Z.leb_le. lia.
  - set (e1 := iteration total g consume i w e) in *.
    assert (counts_ok total e1) as He1 by (by apply iteration_counts_ok).
    rewrite (IH e1 {| count := count w + 1; returned := total <=? count w + 1 |});
      try done.
    + by rewrite Hws, list_insert_insert_eq.
    + rewrite Hws. apply list_lookup_insert_eq. by eapply lookup_lt_Some.
    + simpl. apply Z.leb_gt. unfold worker_ok in Hwok. lia.
    + simpl. lia.
Qed.

Lemma one_by_one_workers m j e :
  counts_ok total e -> proc e = Alive ->
  workers e = replicate j finished ++ replicate m fresh ->
  let e' := run total g consume
              (flat_map (fun i => replicate (Z.to_nat (Z.max 1 total)) i) (seq j m)) e in
  workers e' = replicate (j + m) finished /\ proc e' = Alive.
Proof.
  revert j e. induction m as [|m IH]; intros j e He Ha Hws; simpl.
  - rewrite Hws, Nat.add_0_r. simpl. by rewrite app_nil_r.
  - rewrite run_app.
    destruct (Z.to_nat (Z.max 1 total)) as [|k] eqn:Hk; [lia|].
    set (e1 := run total g consume (replicate (S k) j) e).
    assert (workers e1 = replicate (S j) finished ++ replicate m fresh) as Hws1.
    { unfold e1. rewrite (run_one_worker k e j fresh); try done.
      - rewrite Hws.
        replace j with (List.length (replicate j finished) + 0)%nat at 1
          by (rewrite length_replicate; lia).
        rewrite insert_app_r.
        by rewrite (replicate_S_end j), <- app_assoc.
      - rewrite Hws, lookup_app_r by (rewrite length_replicate; lia).
        rewrite length_replicate, Nat.sub_diag. done.
      - simpl. lia. }
    assert (counts_ok total e1) as He1 by (by apply run_counts_ok).
    assert (proc e1 = Alive) as Ha1 by (by apply run_alive).
    destruct (IH (S j) e1 He1 Ha1 Hws1) as [Hw' Hp'].
    split; [|done]. rewrite Hw'. f_equal. lia.
Qed.

(** Under the schedule [one_by_one] the call returns. *)
Lemma Consumer_one_by_one concurrency w0 sh lg :
  0 <= concurrency ->
  exists e, Consumer total concurrency g consume
              (one_by_one total concurrency) w0 sh lg = Some e /\
            proc e = Alive.
Proof.
  intros Hc. unfold Consumer, one_by_one.
  destruct (Z.ltb_spec concurrency 0); [lia|].
  destruct (one_by_one_workers (Z.to_nat concurrency) 0 (start concurrency w0 sh lg))
    as [Hws Ha]; [apply start_counts_ok|done|done|].
  eexists. split; [|exact Ha].
  unfold settled. rewrite Ha, Hws.
  assert (forallb returned (replicate (0 + Z.to_nat concurrency) finished) = true) as ->; [|done].
  apply forallb_forall. intros x Hx.
  apply list_elem_of_In, elem_of_replicate in Hx as [-> _]. done.
Qed.

(** Every interleaving that lets [Consumer] return leaves each worker
    returned with count [max 1 total] and each shard with as many
    records. *)
Lemma Consumer_settled concurrency sched w0 lg e :
  0 <= concurrency ->
  Consumer total concurrency g consume sched w0
    (replicate (Z.to_nat concurrency) []) lg = Some e ->
  proc e = Alive /\
  List.length (shards e) = Z.to_nat concurrency /\
  Forall (fun w => count w = Z.max 1 total /\ returned w = true) (workers e) /\
  Forall (fun sh => Z.of_nat (List.length sh) = Z.max 1 total) (shards e).
Proof.
  intros Hc He. unfold Consumer in He.
  destruct (Z.ltb_spec concurrency 0); [lia|].
  destruct (settled _) eqn:Hs; [|done]. injection He as <-.
  set (e0 := start concurrency w0 (replicate (Z.to_nat concurrency) []) lg) in *.
  set (e := run total g consume sched e0) in *.
  assert (pool_ok total e) as Hpool
    by (apply run_pool_ok; [done|apply start_pool_ok]).
  assert (proc e = Alive) as Ha
    by (apply run_alive; [apply start_counts_ok|done]).
  assert (List.length (workers e) = Z.to_nat concurrency) as Hlen.
  { unfold e, consume. rewrite run_workers_length. unfold e0, start; simpl.
    by rewrite length_replicate. }
  split; [done|]. split; [by rewrite (pool_sizes total e Hpool)|]. split.
  - apply Forall_lookup. intros i w Hw.
    unfold settled in Hs. rewrite Ha in Hs. rewrite forallb_forall in Hs.
    assert (returned w = true) as Hr
      by (apply Hs, list_elem_of_In, list_elem_of_lookup; eauto).
    pose proof (proj1 (Forall_lookup _ _) (pool_counts total e Hpool) i w Hw) as [Hcw _].
    pose proof (proj1 (Forall_lookup _ _) (pool_done total e Hpool) i w Hw Hr) as Hd.
    split; [lia|done].
  - apply Forall_lookup. intros i sh Hsh.
    assert (i < List.length (workers e))%nat as Hi.
    { rewrite <- (pool_sizes total e Hpool). by eapply lookup_lt_Some. }
    destruct (settled_shards total e i Hpool Ha Hs Hi) as (sh' & Hsh' & Hl).
    congruence.
Qed.

End Reliable.

End Pool.

(** * Facts about the single-process path *)
Module Single.

Import Cli Pool.
Local Open Scope Z_scope.

Lemma to_int_range f n : Float32.to_int f = Some n -> GoInt.in_range n.
Proof.
  unfold Float32.to_int. intros H.
  destruct (GoInt.in_rangeb _) eqn:Hr; [|done].
  injection H as <-. by apply GoInt.in_rangeb_spec.
Qed.

Lemma quota_range total concurrency n :
  per_worker_quota total concurrency = Quota n -> n <= GoInt.max_int.
Proof.
  unfold per_worker_quota. intros H.
  destruct (GoInt.quot total concurrency) as [q|]; [|done].
  destruct (Float32.scale_1_1 q) as [m|] eqn:Hm; [|done].
  injection H as <-. apply to_int_range in Hm. apply Hm.
Qed.

Lemma upto_length n : List.length (upto n) = Z.to_nat n.
Proof. unfold upto. by rewrite length_fmap, length_seq. Qed.


Lemma fmap_nil_replicate {A B} (l : list A) :
  (fun _ => @nil B) <$> l = replicate (List.length l) [].
Proof. induction l as [|a l IH]; csimpl; [done|by f_equal]. Qed.

Section Generate.

Context {Tx World : Type}.
Variable Encode : World -> Z -> Tx -> World * option error.
Variable Create : World -> string -> string -> World * option error.
Variable Getpid : World -> Z.

Definition always_creates : Prop := forall w d n, (Create w d n).2 = None.
Definition always_inits (g : Generator Tx World) : Prop :=
  forall w, (Init g w).2 = None.

(** The collaborators of a run in which nothing goes wrong. *)
Record reliable (g : Generator Tx World) : Prop := {
  rel_init : always_inits g;
  rel_generate : never_fails g;
  rel_encode : always_encodes Encode;
  rel_create : always_creates
}.

Lemma create_files_all dir names w :
  always_creates ->
  exists w', create_files Create dir names w = (w', names, None).
Proof.
  intros Hc. revert w. induction names as [|n rest IH]; intros w; simpl.
  - by exists w.
  - pose proof (Hc w dir n) as Hn.
    destruct (Create w dir n) as [w1 [e|]]; [done|].
    destruct (IH w1) as [w' ->]. by exists w'.
Qed.

Lemma shard_names_length prefix child concurrency :
  List.length (shard_names prefix child concurrency) = Z.to_nat concurrency.
Proof. unfold shard_names, shard_indices. by rewrite !length_fmap, upto_length. Qed.

(** The shard files of one process are pairwise distinct. *)
Lemma shard_names_NoDup prefix child concurrency :
  concurrency <= GoInt.max_int ->
  NoDup (shard_names prefix child concurrency).
Proof.
  intros Hc. unfold shard_names, shard_indices, upto.
  rewrite <- !list_fmap_compose.
  apply NoDup_fmap_2_strong; [|apply NoDup_seq].
  intros i j Hi Hj Heq. simpl in Heq.
  apply Strconv.append_inj_r, Strconv.Sprintf_04d_inj in Heq.
  unfold shard_index, GoInt.add in Heq.
  apply elem_of_seq in Hi, Hj. unfold GoInt.max_int in Hc.
  apply GoInt.wrap_inj in Heq; lia.
Qed.



(** With reliable collaborators [generate] creates its files, computes
    the quota and hands over to [Consumer]. *)
Lemma generate_with_reliable what prefix g total concurrency child output sched w n :
  reliable g -> 0 <= concurrency ->
  per_worker_quota total concurrency = Quota n ->
  exists w2,
    generate_with Encode Create Getpid what prefix (Ok g)
      total concurrency child output sched w =
    e ← Consumer n concurrency g (encode_consume Encode) sched w2
          (replicate (Z.to_nat concurrency) []) [];
    Some {| after := world e; dir := output;
            files := shard_names prefix child concurrency;
            contents := shards e;
            printed :=
              match proc e with
              | Alive =>
                  logs e ++
                  [("child=" +:+ Strconv.Itoa child +:+ ", pid="
                    +:+ Strconv.Itoa (Getpid (world e)))%string]
              | Exited _ => logs e
              end;
            ret := match proc e with
                   | Alive => RetNil
                   | Exited c => Exit c
                   end |}.
Proof.
  intros Hrel Hc Hq. unfold generate_with.
  pose proof (rel_init g Hrel w) as Hi.
  destruct (Init g w) as [w1 [e|]]; [done|].
  destruct (Z.ltb_spec concurrency 0); [lia|].
  destruct (create_files_all output (shard_names prefix child concurrency) w1
              (rel_create g Hrel)) as [w2 ->].
  rewrite Hq, fmap_nil_replicate, shard_names_length. by exists w2.
Qed.

(** Every run of [generate] with reliable collaborators that returns
    has returned [nil], has created the [concurrency] shard files and
    has put exactly [max 1 n] records into each; and the run under
    [one_by_one] returns. *)
Lemma generate_with_records what prefix g total concurrency child output w n :
  reliable g -> 0 <= concurrency ->
  per_worker_quota total concurrency = Quota n ->
  (forall sched r,
     generate_with Encode Create Getpid what prefix (Ok g)
       total concurrency child output sched w = Some r ->
     ret r = RetNil /\
     dir r = output /\
     files r = shard_names prefix child concurrency /\
     List.length (contents r) = Z.to_nat concurrency /\
     Forall (fun sh => Z.of_nat (List.length sh) = Z.max 1 n) (contents r)) /\
  is_Some (generate_with Encode Create Getpid what prefix (Ok g)
             total concurrency child output (one_by_one n concurrency) w).
Proof.
  intros Hrel Hc Hq.
  pose proof (quota_range _ _ _ Hq) as Hn.
  split.
  - intros sched r Hr.
    destruct (generate_with_reliable what prefix g total concurrency child
                output sched w n Hrel Hc Hq) as [w2 Heq].
    rewrite Heq in Hr. clear Heq.
    destruct (Consumer _ _ _ _ _ _ _ _) as [e|] eqn:He; [|done].
    injection Hr as <-. simpl.
    destruct (Consumer_settled n g Encode Hn (rel_generate g Hrel)
                (rel_encode g Hrel) concurrency sched w2 [] e Hc He)
      as (Ha & Hlen & _ & Hsh).
    by rewrite Ha.
  - destruct (generate_with_reliable what prefix g total concurrency child
                output (one_by_one n concurrency) w n Hrel Hc Hq) as [w2 ->].
    destruct (Consumer_one_by_one n g Encode Hn (rel_generate g Hrel)
                (rel_encode g Hrel) concurrency w2
                (replicate (Z.to_nat concurrency) []) [] Hc) as (e & -> & _).
    by eexists.
Qed.

End Generate.

(** The same for the [contract] subcommand with [process = 1]. *)
Lemma contract_run_records {Tx World : Type}
  (NewContract : Config -> result error (Generator Tx World))
  (Encode : World -> Z -> Tx -> World * option error)
  (Create : World -> string -> string -> World * option error)
  (Getpid : World -> Z)
  (CmdRun : World -> list string -> World * option error)
  (c : ContractCommand.t) (g : Generator Tx World) (w : World) (n : Z) :
  ContractCommand.process c = 1 ->
  0 <= ContractCommand.concurrency c ->
  NewContract (ContractCommand.config c) = Ok g ->
  reliable Encode Create g ->
  per_worker_quota (ContractCommand.total c) (ContractCommand.concurrency c)
    = Quota n ->
  (forall sched r,
     ContractCommand.RunE NewContract Encode Create Getpid CmdRun c sched w
       = Generated (Some r) ->
     ret r = RetNil /\
     dir r = ContractCommand.output c /\
     files r = shard_names "short_content.dat." (ContractCommand.child c)
                 (ContractCommand.concurrency c) /\
     List.length (contents r) = Z.to_nat (ContractCommand.concurrency c) /\
     Forall (fun sh => Z.of_nat (List.length sh) = Z.max 1 n) (contents r)) /\
  (exists sched r,
     ContractCommand.RunE NewContract Encode Create Getpid CmdRun c sched w
       = Generated (Some r)).
Proof.
  intros Hp Hc Hnew Hrel Hquota.
  destruct (generate_with_records Encode Create Getpid
              "evidence" "short_content.dat." g (ContractCommand.total c)
              (ContractCommand.concurrency c)
              (ContractCommand.child c) (ContractCommand.output c) w
              n Hrel Hc Hquota) as [Hall [r Hr]].
  unfold ContractCommand.RunE. rewrite Hp. simpl.
  unfold ContractCommand.generate. rewrite Hnew. split.
  - intros sched r' [= Hr']. exact (Hall sched r' Hr').
  - eexists _, r. by rewrite Hr.
Qed.

End Single.

(** * Facts about the process fan-out *)
Module Fanout.

Import Cli.
Local Open Scope Z_scope.

Lemma mapM_total {A B} (f : A -> option B) (h : A -> B) (l : list A) :
  (forall x, x ∈ l -> f x = Some (h x)) -> mapM f l = Some (h <$> l).
Proof.
  intros Hf. apply mapM_Some_2, Forall2_fmap_r, Forall_Forall2_diag.
  by apply Forall_forall.
Qed.


Section Orchestrator.

Context {World : Type}.
Variable CmdRun : World -> list string -> World * option error.
Variable cmds : list (list string).






(** The fan-out only appends launches and returns to the trace. *)
Lemma orch_run_trace sched o :
  exists rest,
    trace (orch_run CmdRun cmds sched o) = trace o ++ rest /\
    Forall (fun ev => is_split ev = false) rest.
Proof.
  revert o. induction sched as [|i rest IH]; intros o; simpl.
  - exists []. by rewrite app_nil_r.
  - destruct (orch_step CmdRun cmds i o) as [o'|] eqn:Hs; simpl; [|apply IH].
    destruct (IH o') as (more & -> & Hmore).
    unfold orch_step in Hs.
    destruct (o_proc o); [|done].
    destruct (stages o !! i) as [[| |]|]; try done;
      destruct (cmds !! i) as [argv|]; try done.
    + injection Hs as <-. simpl. exists (EvRun i argv :: more).
      split; [by rewrite <- app_assoc|by constructor].
    + destruct (CmdRun (o_world o) argv) as [w' r]. injection Hs as <-. simpl.
      exists (EvDone i r :: more).
      split; [by rewrite <- app_assoc|by constructor].
Qed.








End Orchestrator.

End Fanout.

(** * Facts about the commands of the children *)
Module Children.

Import Cli.
Local Open Scope string_scope.
Local Open Scope list_scope.
Local Open Scope Z_scope.

(** The specification in its own words: child [i] is re-invoked with its slice
    [q] of the total, the same length, concurrency and output
    directory, [process] pinned to 1 and its own child index. *)
Definition child_args (c : ContractCommand.t) (q i : Z) : list string :=
  [ "contract";
    "--total"; Strconv.Itoa q;
    "--length"; Strconv.Itoa (ContractCommand.length c);
    "--output"; ContractCommand.output c;
    "--concurrency"; Strconv.Itoa (ContractCommand.concurrency c);
    "--process"; "1";
    "--child"; Strconv.Itoa i ].

Definition child_command (c : ContractCommand.t) (q i : Z) : ContractCommand.t :=
  {| ContractCommand.host := ContractCommand.host ContractCommand.defaults;
     ContractCommand.total := q;
     ContractCommand.concurrency := ContractCommand.concurrency c;
     ContractCommand.output := ContractCommand.output c;
     ContractCommand.process := 1;
     ContractCommand.child := i;
     ContractCommand.length := ContractCommand.length c |}.

(** [t.total/t.process] as the code computes it. *)
Definition slice (c : ContractCommand.t) : Z :=
  GoInt.wrap (Z.quot (ContractCommand.total c) (ContractCommand.process c)).

Lemma spawn_child_args c i :
  ContractCommand.process c <> 0 ->
  ContractCommand.spawn c i = Some (child_args c (slice c) i).
Proof.
  intros Hp. unfold ContractCommand.spawn, GoInt.quot.
  by destruct (Z.eqb_spec (ContractCommand.process c) 0).
Qed.

(** For a total that is not negative the slice is the floor of the
    quotient. *)
Lemma slice_floor c :
  1 < ContractCommand.process c -> 0 <= ContractCommand.total c ->
  GoInt.in_range (ContractCommand.total c) ->
  slice c = ContractCommand.total c / ContractCommand.process c.
Proof.
  intros Hp Ht Hr.
  pose proof (GoInt.quot_nonneg _ (ContractCommand.process c) Ht Hr ltac:(lia)) as H.
  unfold GoInt.quot in H.
  destruct (Z.eqb_spec (ContractCommand.process c) 0); [lia|].
  by injection H.
Qed.

Lemma upto_in_range n i : GoInt.in_range n -> i ∈ upto n -> GoInt.in_range i.
Proof.
  unfold upto. intros Hn (k & -> & Hk)%list_elem_of_fmap.
  apply elem_of_seq in Hk.
  unfold GoInt.in_range, GoInt.min_int, GoInt.max_int in *. lia.
Qed.


(** The flag library reads back from the arguments exactly the command
    the specification describes. *)
Lemma invoked_child_args c q i :
  ContractCommand.well_formed c -> GoInt.in_range q -> GoInt.in_range i ->
  ContractCommand.invoked (child_args c q i) = Some (child_command c q i).
Proof.
  intros (Ht & Hc & Hp & _ & Hl) Hq Hi.
  unfold ContractCommand.invoked, child_args.
  change (String.eqb "contract" "contract") with true. cbv iota.
  cbn [ContractCommand.parse_flags].
  change (ContractCommand.set_flag "--total" ?v ?k)
    with (z ← Strconv.ParseInt v;
          Some (ContractCommand.Build_t (ContractCommand.host k) z
                  (ContractCommand.concurrency k) (ContractCommand.output k)
                  (ContractCommand.process k) (ContractCommand.child k)
                  (ContractCommand.length k))).
  rewrite (Strconv.ParseInt_Itoa _ Hq). cbn [mbind option_bind].
  change (ContractCommand.set_flag "--length" ?v ?k)
    with (z ← Strconv.ParseInt v;
          Some (ContractCommand.Build_t (ContractCommand.host k)
                  (ContractCommand.total k)
                  (ContractCommand.concurrency k) (ContractCommand.output k)
                  (ContractCommand.process k) (ContractCommand.child k) z)).
  rewrite (Strconv.ParseInt_Itoa _ Hl). cbn [mbind option_bind].
  change (ContractCommand.set_flag "--output" ?v ?k)
    with (Some (ContractCommand.Build_t (ContractCommand.host k)
                  (ContractCommand.total k)
                  (ContractCommand.concurrency k) v
                  (ContractCommand.process k) (ContractCommand.child k)
                  (ContractCommand.length k))).
  cbn [mbind option_bind].
  change (ContractCommand.set_flag "--concurrency" ?v ?k)
    with (z ← Strconv.ParseInt v;
          Some (ContractCommand.Build_t (ContractCommand.host k)
                  (ContractCommand.total k) z (ContractCommand.output k)
                  (ContractCommand.process k) (ContractCommand.child k)
                  (ContractCommand.length k))).
  rewrite (Strconv.ParseInt_Itoa _ Hc). cbn [mbind option_bind].
  change (ContractCommand.set_flag "--process" ?v ?k)
    with (z ← Strconv.ParseInt v;
          Some (ContractCommand.Build_t (ContractCommand.host k)
                  (ContractCommand.total k)
                  (ContractCommand.concurrency k) (ContractCommand.output k)
                  z (ContractCommand.child k)
                  (ContractCommand.length k))).
  change (Strconv.ParseInt "1") with (Some 1). cbn [mbind option_bind].
  change (ContractCommand.set_flag "--child" ?v ?k)
    with (z ← Strconv.ParseInt v;
          Some (ContractCommand.Build_t (ContractCommand.host k)
                  (ContractCommand.total k)
                  (ContractCommand.concurrency k) (ContractCommand.output k)
                  (ContractCommand.process k) z
                  (ContractCommand.length k))).
  rewrite (Strconv.ParseInt_Itoa _ Hi). cbn [mbind option_bind].
  reflexivity.
Qed.






(** The flag names of an argument list, and what they decide: a list
    that never names [--host] leaves the host as it was. *)
Fixpoint flag_names (args : list string) : list string :=
  match args with
  | name :: _ :: rest => name :: flag_names rest
  | _ => []
  end.

Lemma set_flag_host name value k k' :
  ContractCommand.set_flag name value k = Some k' -> name <> "--host" ->
  ContractCommand.host k' = ContractCommand.host k.
Proof.
  intros H Hne. unfold ContractCommand.set_flag in H.
  destruct (String.eqb_spec name "--host") as [->|_]; [done|].
  repeat match type of H with
         | context [if ?b then _ else _] => destruct b
         end; simplify_option_eq; done.
Qed.

Lemma parse_flags_host args k k' :
  ContractCommand.parse_flags args k = Some k' ->
  "--host" ∉ flag_names args ->
  ContractCommand.host k' = ContractCommand.host k.
Proof.
  revert k. induction args as [args IH] using (induction_ltof1 _ List.length).
  unfold ltof in IH. intros k H Hnames.
  destruct args as [|name [|value rest]]; simpl in *; [by injection H as <-|done|].
  destruct (ContractCommand.set_flag name value k) as [k1|] eqn:Hset; [|done].
  simpl in H. apply not_elem_of_cons in Hnames as [Hne Hrest].
  rewrite (IH rest ltac:(simpl; lia) k1 H Hrest).
  by eapply set_flag_host.
Qed.

(** A child never takes the host of its parent: [spawn] does not pass
    [--host], so the child runs with the default. *)
Lemma invoked_host c q i k :
  ContractCommand.invoked (child_args c q i) = Some k ->
  ContractCommand.host k = ContractCommand.host ContractCommand.defaults.
Proof.
  unfold ContractCommand.invoked, child_args.
  change (String.eqb "contract" "contract") with true. cbv iota.
  intros H. apply parse_flags_host in H; [done|].
  cbn [flag_names]. intros Hin.
  repeat (apply elem_of_cons in Hin as [Hin|Hin]; [discriminate Hin|]).
  by apply elem_of_nil in Hin.
Qed.

End Children.

(** * Concrete collaborators

    A world that counts the transactions generated so far; a
    transaction is the worker it was made for and its serial number. *)
Module Demo.

Import Cli.
Local Open Scope string_scope.
Local Open Scope Z_scope.

Definition Tx : Type := (Z * nat)%type.
Definition World : Type := nat.

Definition generator : Generator Tx World :=
  {| Init := fun w => (w, None);
     Generate := fun w i => (S w, Ok (i, w)) |}.

(** A generator whose every call fails. *)
Definition broken : Generator Tx World :=
  {| Init := fun w => (w, None);
     Generate := fun w i => (w, Err "no utxo") |}.

Definition Encode (w : World) (i : Z) (tx : Tx) : World * option error :=
  (w, None).
Definition EncodeFull (w : World) (i : Z) (tx : Tx) : World * option error :=
  (w, Some "no space left on device").
Definition Create (w : World) (d n : string) : World * option error := (w, None).
Definition Getpid (w : World) : Z := 4242.
Definition CmdRun (w : World) (argv : list string) : World * option error :=
  (w, None).
Definition NewContract (cfg : Config) : result error (Generator Tx World) :=
  Ok generator.
Definition NewTransaction (cfg : Config) : result error (Generator Tx World) :=
  Ok generator.
Definition SplitTx (w : World) (host : string) (bank : unit) (amount : string)
    (count : Z) : World * option error := (w, None).
Definition SplitTxRefused (w : World) (host : string) (bank : unit)
    (amount : string) (count : Z) : World * option error :=
  (w, Some "connection refused").

Lemma generator_reliable : Single.reliable Encode Create generator.
Proof. by split. Qed.

End Demo.

(** * Verified properties *)

(** C8. The [short_content] constructor fails when the ["length"]
    argument is absent or is not an unsigned decimal number; when it
    parses to [0] or to more than [3000] the constructor succeeds with
    the default length [64]; otherwise the configured length is the
    parsed number. *)
Theorem C8_short_content_length
  (XClient : Type) (config : Contracts.ContractConfig) (client : XClient) :
  (Contracts.Args config !! "length"%string = None ->
   Contracts.NewShortContent config client = Err Contracts.ErrLengthNotExist) /\
  (forall s, Contracts.Args config !! "length"%string = Some s ->
     Strconv.ParseUint s = None ->
     Contracts.NewShortContent config client = Err (Contracts.ErrLengthSyntax s)) /\
  (forall s n, Contracts.Args config !! "length"%string = Some s ->
     Strconv.ParseUint s = Some n -> n = 0 \/ 3000 < n ->
     Contracts.length <$> ok_value (Contracts.NewShortContent config client)
       = Some 64) /\
  (forall s n, Contracts.Args config !! "length"%string = Some s ->
     Strconv.ParseUint s = Some n -> 0 < n <= 3000 ->
     Contracts.length <$> ok_value (Contracts.NewShortContent config client)
       = Some n).
Proof.
  unfold Contracts.NewShortContent. repeat split.
  - by intros ->.
  - by intros s -> ->.
  - intros s n -> -> Hn. simpl.
    destruct (Z.leb_spec n 0), (Z.ltb_spec 3000 n); simpl; try done; lia.
  - intros s n -> -> Hn. simpl.
    destruct (Z.leb_spec n 0), (Z.ltb_spec 3000 n); simpl; try lia.
    rewrite GoInt.wrap_in_range; [done|].
    unfold GoInt.in_range, GoInt.min_int, GoInt.max_int. lia.
Qed.

Lemma C8_short_content_length_witness :
  Contracts.length <$>
    ok_value (Contracts.NewShortContent (Contracts.with_length "5000") tt)
  = Some 64 /\
  Contracts.length <$>
    ok_value (Contracts.NewShortContent (Contracts.with_length "0") tt)
  = Some 64 /\
  Contracts.length <$>
    ok_value (Contracts.NewShortContent (Contracts.with_length "200") tt)
  = Some 200 /\
  Contracts.NewShortContent (Contracts.with_length "long") tt
  = Err (Contracts.ErrLengthSyntax "long") /\
  Contracts.NewShortContent {| Contracts.Args := ∅ |} tt
  = Err Contracts.ErrLengthNotExist.
Proof.
  refine (conj _ (conj _ (conj _ (conj _ _)))).
  - apply (proj1 (proj2 (proj2
      (C8_short_content_length unit (Contracts.with_length "5000") tt)))
      "5000"%string 5000); [reflexivity | reflexivity | right; lia].
  - apply (proj1 (proj2 (proj2
      (C8_short_content_length unit (Contracts.with_length "0") tt)))
      "0"%string 0); [reflexivity | reflexivity | left; lia].
  - apply (proj2 (proj2 (proj2
      (C8_short_content_length unit (Contracts.with_length "200") tt)))
      "200"%string 200); [reflexivity | reflexivity | lia].
  - apply (proj1 (proj2
      (C8_short_content_length unit (Contracts.with_length "long") tt))
      "long"%string); reflexivity.
  - apply (proj1
      (C8_short_content_length unit {| Contracts.Args := ∅ |} tt)); reflexivity.
Defined.

(** C9. When [Consumer] is called with a quota [total <= 0] and
    [concurrency > 0] workers, and neither generation nor encoding
    fails, each worker performs exactly one iteration before the quota
    check stops it: every run that returns leaves one record in each
    shard file, and some run returns. The computed quota is [0]
    whenever [0 <= runTotal < concurrency]. *)
Theorem C9_quota_zero_one_record {Tx World : Type}
  (g : Cli.Generator Tx World)
  (Encode : World -> Z -> Tx -> World * option Cli.error)
  (total concurrency : Z) (w0 : World) (lg : list string) :
  total <= 0 -> 0 < concurrency ->
  Pool.never_fails g -> Pool.always_encodes Encode ->
  (forall sched e,
     Cli.Consumer total concurrency g (Cli.encode_consume Encode) sched w0
       (replicate (Z.to_nat concurrency) []) lg = Some e ->
     Cli.proc e = Cli.Alive /\
     List.length (Cli.shards e) = Z.to_nat concurrency /\
     Forall (fun w => Cli.count w = 1 /\ Cli.returned w = true) (Cli.workers e) /\
     Forall (fun sh => List.length sh = 1%nat) (Cli.shards e)) /\
  is_Some (Cli.Consumer total concurrency g (Cli.encode_consume Encode)
             (Cli.one_by_one total concurrency) w0
             (replicate (Z.to_nat concurrency) []) lg) /\
  (forall runTotal, 0 <= runTotal < concurrency ->
     Cli.per_worker_quota runTotal concurrency = Cli.Quota 0).
Proof.
  intros Ht Hc Hg He.
  assert (total <= GoInt.max_int) as Hint by (unfold GoInt.max_int; lia).
  split; [|split].
  - intros sched e Hrun.
    destruct (Pool.Consumer_settled total g Encode Hint Hg He concurrency
                sched w0 lg e ltac:(lia) Hrun) as (Ha & Hlen & Hws & Hsh).
    replace (Z.max 1 total) with 1 in * by lia.
    repeat split; try done.
    eapply Forall_impl; [exact Hsh|]. simpl. lia.
  - destruct (Pool.Consumer_one_by_one total g Encode Hint Hg He concurrency
                w0 (replicate (Z.to_nat concurrency) []) lg ltac:(lia))
      as (e & -> & _). by eexists.
  - intros runTotal Hr. unfold Cli.per_worker_quota, GoInt.quot.
    destruct (Z.eqb_spec concurrency 0); [lia|].
    rewrite Z.quot_small by lia. reflexivity.
Qed.

Lemma C9_quota_zero_one_record_witness :
  (0 <= 0 /\ 0 < 3) /\
  exists e,
    Cli.Consumer 0 3 Demo.generator (Cli.encode_consume Demo.Encode)
      [2; 0; 1]%nat 0%nat (replicate (Z.to_nat 3) []) [] = Some e /\
    Forall (fun sh => List.length sh = 1%nat) (Cli.shards e) /\
    Cli.per_worker_quota 2 3 = Cli.Quota 0.
Proof.
  split; [lia|].
  pose proof (C9_quota_zero_one_record Demo.generator Demo.Encode 0 3 0%nat []
                ltac:(lia) ltac:(lia) ltac:(by intros ??) ltac:(by intros ???))
    as (Hall & _ & Hq).
  eexists. split; [reflexivity|]. split.
  - refine (proj2 (proj2 (proj2 (Hall [2; 0; 1]%nat _ _)))). reflexivity.
  - apply Hq. lia.
Defined.

(** The quota of a process whose even split [q] lies in [[0, 1572868]]. *)
Lemma quota_of_split total concurrency :
  0 < concurrency -> 0 <= total -> total / concurrency < 1572869 ->
  Cli.per_worker_quota total concurrency =
  Cli.Quota (11 * (total / concurrency) / 10).
Proof.
  intros Hc Ht Hq. unfold Cli.per_worker_quota, GoInt.quot.
  destruct (Z.eqb_spec concurrency 0); [lia|].
  rewrite Z.quot_div_nonneg by lia.
  pose proof (Z.div_pos total concurrency Ht Hc) as Hq0.
  rewrite GoInt.wrap_in_range
    by (unfold GoInt.in_range, GoInt.min_int, GoInt.max_int; lia).
  by rewrite Float32.scale_1_1_exact by lia.
Qed.

(** C1 (as amended). In a single-process run of [contract]
    ([process = 1]) with [concurrency > 0] whose even split
    [q = runTotal / concurrency] satisfies [1 <= q <= 1572868], and
    whose generator, file creation and encoding do not fail, every run
    that returns has returned [nil], has created exactly [concurrency]
    pairwise distinct shard files and has written exactly
    [floor (11 q / 10)] records to each; and some run returns. *)
Theorem C1_shard_record_count {Tx World : Type}
  (NewContract : Cli.Config -> result Cli.error (Cli.Generator Tx World))
  (Encode : World -> Z -> Tx -> World * option Cli.error)
  (Create : World -> string -> string -> World * option Cli.error)
  (Getpid : World -> Z)
  (CmdRun : World -> list string -> World * option Cli.error)
  (c : Cli.ContractCommand.t) (g : Cli.Generator Tx World) (w : World) :
  Cli.ContractCommand.process c = 1 ->
  0 < Cli.ContractCommand.concurrency c <= GoInt.max_int ->
  1 <= Cli.ContractCommand.total c / Cli.ContractCommand.concurrency c < 1572869 ->
  NewContract (Cli.ContractCommand.config c) = Ok g ->
  Single.reliable Encode Create g ->
  (forall sched r,
     Cli.ContractCommand.RunE NewContract Encode Create Getpid CmdRun c sched w
       = Cli.Generated (Some r) ->
     Cli.ret r = Cli.RetNil /\
     NoDup (Cli.files r) /\
     List.length (Cli.files r) = Z.to_nat (Cli.ContractCommand.concurrency c) /\
     List.length (Cli.contents r) = Z.to_nat (Cli.ContractCommand.concurrency c) /\
     Forall (fun sh => Z.of_nat (List.length sh) =
               11 * (Cli.ContractCommand.total c / Cli.ContractCommand.concurrency c) / 10)
            (Cli.contents r)) /\
  (exists sched r,
     Cli.ContractCommand.RunE NewContract Encode Create Getpid CmdRun c sched w
       = Cli.Generated (Some r)).
Proof.
  intros Hp Hc Hq Hnew Hrel.
  set (total := Cli.ContractCommand.total c) in *.
  set (conc := Cli.ContractCommand.concurrency c) in *.
  assert (0 <= total) as Ht.
  { destruct (Z_lt_le_dec total 0) as [Hneg|]; [|done].
    pose proof (Z.div_lt_upper_bound total conc 0 ltac:(lia) ltac:(lia)). lia. }
  pose proof (quota_of_split total conc ltac:(lia) Ht ltac:(lia)) as Hquota.
  destruct (Single.contract_run_records NewContract Encode Create Getpid CmdRun
              c g w _ Hp ltac:(fold conc; lia) Hnew Hrel Hquota) as [Hall Hsome].
  split; [|exact Hsome].
  intros sched r Hr.
  destruct (Hall sched r Hr) as (Hret & _ & Hfiles & Hlen & Hrec).
  split; [done|]. rewrite Hfiles. split; [|split; [|split]].
  - apply Single.shard_names_NoDup. fold conc. lia.
  - apply Single.shard_names_length.
  - done.
  - assert (Z.max 1 (11 * (total / conc) / 10) = 11 * (total / conc) / 10)
      as Hmax.
    { assert (1 <= 11 * (total / conc) / 10)
        by (apply Z.div_le_lower_bound; lia). lia. }
    by rewrite Hmax in Hrec.
Qed.

(** The scenario of the specification: a million transactions over 20
    workers in one process. *)
Definition million : Cli.ContractCommand.t :=
  {| Cli.ContractCommand.host := "127.0.0.1:37101";
     Cli.ContractCommand.total := 1000000;
     Cli.ContractCommand.concurrency := 20;
     Cli.ContractCommand.output := "./data/evidence";
     Cli.ContractCommand.process := 1;
     Cli.ContractCommand.child := 0;
     Cli.ContractCommand.length := 200 |}.

Lemma C1_shard_record_count_witness :
  (forall sched r,
     Cli.ContractCommand.RunE Demo.NewContract Demo.Encode Demo.Create
       Demo.Getpid Demo.CmdRun million sched 0%nat = Cli.Generated (Some r) ->
     Cli.ret r = Cli.RetNil /\
     NoDup (Cli.files r) /\
     List.length (Cli.files r) = 20%nat /\
     List.length (Cli.contents r) = 20%nat /\
     Forall (fun sh => Z.of_nat (List.length sh) = 55000) (Cli.contents r)) /\
  (exists sched r,
     Cli.ContractCommand.RunE Demo.NewContract Demo.Encode Demo.Create
       Demo.Getpid Demo.CmdRun million sched 0%nat = Cli.Generated (Some r)).
Proof.
  apply (C1_shard_record_count Demo.NewContract Demo.Encode Demo.Create
           Demo.Getpid Demo.CmdRun million Demo.generator 0%nat).
  - reflexivity.
  - simpl. unfold GoInt.max_int. lia.
  - simpl. change (1000000 / 20) with 50000. lia.
  - reflexivity.
  - exact Demo.generator_reliable.
Defined.

(** Two runs of one worker pool each: [1572869] transactions for one
    worker, and [5] transactions for [10] workers. *)
Definition excess : Cli.ContractCommand.t :=
  {| Cli.ContractCommand.host := "127.0.0.1:37101";
     Cli.ContractCommand.total := 1572869;
     Cli.ContractCommand.concurrency := 1;
     Cli.ContractCommand.output := "./data/evidence";
     Cli.ContractCommand.process := 1;
     Cli.ContractCommand.child := 0;
     Cli.ContractCommand.length := 200 |}.

Definition scarce : Cli.ContractCommand.t :=
  {| Cli.ContractCommand.host := "127.0.0.1:37101";
     Cli.ContractCommand.total := 5;
     Cli.ContractCommand.concurrency := 10;
     Cli.ContractCommand.output := "./data/evidence";
     Cli.ContractCommand.process := 1;
     Cli.ContractCommand.child := 0;
     Cli.ContractCommand.length := 200 |}.

(** C1 as stated: every returning single-process run leaves exactly
    [floor ((runTotal / concurrency) * 1.1)] records in each shard. *)
Definition exact_split_count (c : Cli.ContractCommand.t) : Prop :=
  forall sched r,
    Cli.ContractCommand.RunE Demo.NewContract Demo.Encode Demo.Create
      Demo.Getpid Demo.CmdRun c sched 0%nat = Cli.Generated (Some r) ->
    Forall (fun sh => Z.of_nat (List.length sh) =
              11 * (Cli.ContractCommand.total c / Cli.ContractCommand.concurrency c) / 10)
           (Cli.contents r).

Lemma demo_records c n :
  Cli.ContractCommand.process c = 1 ->
  0 < Cli.ContractCommand.concurrency c ->
  Cli.per_worker_quota (Cli.ContractCommand.total c)
    (Cli.ContractCommand.concurrency c) = Cli.Quota n ->
  exists sched r sh,
    Cli.ContractCommand.RunE Demo.NewContract Demo.Encode Demo.Create
      Demo.Getpid Demo.CmdRun c sched 0%nat = Cli.Generated (Some r) /\
    sh ∈ Cli.contents r /\ Z.of_nat (List.length sh) = Z.max 1 n.
Proof.
  intros Hp Hc Hq.
  destruct (Single.contract_run_records Demo.NewContract Demo.Encode Demo.Create
              Demo.Getpid Demo.CmdRun c Demo.generator 0%nat n Hp ltac:(lia)
              eq_refl Demo.generator_reliable Hq) as [Hall (sched & r & Hr)].
  destruct (Hall sched r Hr) as (_ & _ & _ & Hlen & Hrec).
  destruct (Cli.contents r) as [|sh rest] eqn:Hcont; [simpl in Hlen; lia|].
  exists sched, r, sh. rewrite Hcont. split; [done|]. split; [left|].
  by inversion Hrec.
Qed.

(** C1 fails as stated. With [runTotal = 1572869] and one worker the
    shard receives [1730156] records, one more than
    [floor (1572869 * 1.1) = 1730155]: the product is rounded to
    [float32]. With [runTotal = 5] and [10] workers each shard receives
    one record, not [floor (0 * 1.1) = 0]. *)
Lemma C1_counterexample : ~ exact_split_count excess /\ ~ exact_split_count scarce.
Proof.
  split; intros H.
  - destruct (demo_records excess 1730156 eq_refl ltac:(simpl; lia) eq_refl)
      as (sched & r & sh & Hr & Hin & Hlen).
    pose proof (proj1 (Forall_forall _ _) (H sched r Hr) sh Hin) as Hclaim.
    simpl in Hclaim. rewrite Hlen in Hclaim. discriminate Hclaim.
  - destruct (demo_records scarce 0 eq_refl ltac:(simpl; lia) eq_refl)
      as (sched & r & sh & Hr & Hin & Hlen).
    pose proof (proj1 (Forall_forall _ _) (H sched r Hr) sh Hin) as Hclaim.
    simpl in Hclaim. rewrite Hlen in Hclaim. discriminate Hclaim.
Qed.

(** C4 fails on the code for a quota of zero: with [total = 0] a worker
    whose generator and encoder succeed completes one iteration, one
    more than its quota, and its shard holds one record. *)
Lemma C4_quota_zero_overrun :
  exists e w,
    Cli.Consumer 0 1 Demo.generator (Cli.encode_consume Demo.Encode)
      [0%nat] 0%nat [[]] [] = Some e /\
    Cli.workers e !! 0%nat = Some w /\
    Cli.returned w = true /\
    Cli.count w = 1 /\
    Cli.shards e = [[(0, 0%nat)]] /\
    ~ Cli.count w <= 0.
Proof.
  eexists _, _. split; [reflexivity|]. split; [reflexivity|].
  split; [reflexivity|]. split; [reflexivity|]. split; [reflexivity|].
  intros H. vm_compute in H. by apply H.
Qed.

(** C5. When the [Generate] call of a running worker returns an error,
    that iteration writes nothing to any shard, logs the error and ends
    the process with status 1, after which no worker takes another
    step (no retry, no skipping). A failed [Encode] of a generated
    transaction is fatal in the same way. *)
Theorem C5_failure_is_fatal {Tx World : Type}
  (total : Z) (g : Cli.Generator Tx World)
  (Encode : World -> Z -> Tx -> World * option Cli.error)
  (e : Cli.engine Tx World) (i : nat) (w : Cli.worker) :
  Cli.proc e = Cli.Alive ->
  Cli.workers e !! i = Some w ->
  Cli.returned w = false ->
  (forall w1 err,
     Cli.Generate g (Cli.world e) (Z.of_nat i) = (w1, Err err) ->
     exists e',
       Cli.step total g (Cli.encode_consume Encode) i e = Some e' /\
       Cli.shards e' = Cli.shards e /\
       Cli.workers e' = Cli.workers e /\
       Cli.proc e' = Cli.Exited 1 /\
       Cli.logs e' = Cli.logs e ++ [("generate tx error: " +:+ err)%string] /\
       Cli.settled e' = true /\
       forall sched, Cli.run total g (Cli.encode_consume Encode) sched e' = e') /\
  (forall w1 tx w2 err,
     Cli.Generate g (Cli.world e) (Z.of_nat i) = (w1, Ok tx) ->
     Encode w1 (Z.of_nat i) tx = (w2, Some err) ->
     exists e',
       Cli.step total g (Cli.encode_consume Encode) i e = Some e' /\
       Cli.shards e' = Cli.shards e /\
       Cli.workers e' = Cli.workers e /\
       Cli.proc e' = Cli.Exited 1 /\
       Cli.logs e' = Cli.logs e ++ [("write tx error: " +:+ err)%string] /\
       Cli.settled e' = true /\
       forall sched, Cli.run total g (Cli.encode_consume Encode) sched e' = e').
Proof.
  intros Ha Hw Hr. split.
  - intros w1 err Hg. eexists. split.
    + unfold Cli.step. rewrite Ha, Hw, Hr. unfold Cli.iteration. rewrite Hg.
      reflexivity.
    + simpl. repeat split.
      intros sched. by apply (Pool.run_exited _ _ _ sched _ 1).
  - intros w1 tx w2 err Hg He. eexists. split.
    + unfold Cli.step. rewrite Ha, Hw, Hr.
      unfold Cli.iteration, Cli.encode_consume. rewrite Hg, He. reflexivity.
    + simpl. repeat split.
      intros sched. by apply (Pool.run_exited _ _ _ sched _ 1).
Qed.

Lemma C5_failure_is_fatal_witness :
  let e := Cli.start 2 0%nat [[]; []] [] in
  (exists e',
     Cli.step 10 Demo.broken (Cli.encode_consume Demo.Encode) 1 e = Some e' /\
     Cli.shards e' = [[]; []] /\
     Cli.proc e' = Cli.Exited 1 /\
     Cli.logs e' = ["generate tx error: no utxo"%string]) /\
  (exists e',
     Cli.step 10 Demo.generator (Cli.encode_consume Demo.EncodeFull) 1 e = Some e' /\
     Cli.shards e' = [[]; []] /\
     Cli.proc e' = Cli.Exited 1 /\
     Cli.logs e' = ["write tx error: no space left on device"%string]).
Proof.
  intros e.
  pose proof (C5_failure_is_fatal 10 Demo.broken Demo.Encode e 1 Pool.fresh
                eq_refl eq_refl eq_refl) as [Hgen _].
  pose proof (C5_failure_is_fatal 10 Demo.generator Demo.EncodeFull e 1 Pool.fresh
                eq_refl eq_refl eq_refl) as [_ Henc].
  split.
  - destruct (Hgen 0%nat "no utxo"%string eq_refl)
      as (e' & Hs & Hsh & _ & Hp & Hl & _).
    exists e'. by repeat split.
  - destruct (Henc 1%nat (1, 0%nat) 1%nat "no space left on device"%string
                eq_refl eq_refl) as (e' & Hs & Hsh & _ & Hp & Hl & _).
    exists e'. by repeat split.
Defined.


(** The second scenario of the specification: a million transactions,
    20 workers, 5 processes. *)
Definition five : Cli.ContractCommand.t :=
  {| Cli.ContractCommand.host := "10.0.0.7:37101";
     Cli.ContractCommand.total := 1000000;
     Cli.ContractCommand.concurrency := 20;
     Cli.ContractCommand.output := "./data/evidence";
     Cli.ContractCommand.process := 5;
     Cli.ContractCommand.child := 0;
     Cli.ContractCommand.length := 200 |}.





(** The same fan-out for the [tx] subcommand: four processes. *)
Definition four : Cli.TransactionCommand.t :=
  {| Cli.TransactionCommand.total := 1000000;
     Cli.TransactionCommand.concurrency := 20;
     Cli.TransactionCommand.output := "../data/transaction";
     Cli.TransactionCommand.process := 4;
     Cli.TransactionCommand.child := 0;
     Cli.TransactionCommand.host := "10.0.0.7:37101";
     Cli.TransactionCommand.amount := "100000000" |}.



(** C7. In a multi-process run of [tx] ([process > 1]) whose shard count
    fits in an [int], [SplitTx] is called first and once, with count
    [concurrency * process]: the trace starts with that call and
    contains no other. If the call returns an error, [RunE] returns it
    and no child has been spawned; otherwise the children are
    orchestrated from the world the call left. *)
Theorem C7_split_once_before_spawn {Tx World Account : Type}
  (NewTransaction : Cli.Config -> result Cli.error (Cli.Generator Tx World))
  (SplitTx : World -> string -> Account -> string -> Z -> World * option Cli.error)
  (Bank : Account)
  (Encode : World -> Z -> Tx -> World * option Cli.error)
  (Create : World -> string -> string -> World * option Cli.error)
  (Getpid : World -> Z)
  (CmdRun : World -> list string -> World * option Cli.error)
  (t : Cli.TransactionCommand.t) (sched : list nat) (w : World) :
  1 < Cli.TransactionCommand.process t ->
  GoInt.in_range (Cli.TransactionCommand.concurrency t * Cli.TransactionCommand.process t) ->
  let count := Cli.TransactionCommand.concurrency t * Cli.TransactionCommand.process t in
  let split := Cli.EvSplit (Cli.TransactionCommand.host t)
                 (Cli.TransactionCommand.amount t) count in
  let call := SplitTx w (Cli.TransactionCommand.host t) Bank
                (Cli.TransactionCommand.amount t) count in
  let r := Cli.TransactionCommand.RunE NewTransaction SplitTx Bank Encode Create
             Getpid CmdRun t sched w in
  (exists rest, Cli.ran_trace r = split :: rest /\
                Forall (fun ev => Cli.is_split ev = false) rest) /\
  (forall e, call.2 = Some e ->
     r = Cli.Failed call.1 [split] e /\
     Cli.ran_outcome r = Some (Cli.RetErr e) /\
     Cli.launched (Cli.ran_trace r) = []) /\
  (call.2 = None ->
     exists cmds,
       mapM (Cli.TransactionCommand.spawn t) (Cli.upto (Cli.TransactionCommand.process t))
         = Some cmds /\
       r = Cli.Spawned (Cli.orchestrate CmdRun cmds sched call.1 [split])).
Proof.
  intros Hp Hr count split call r.
  assert (GoInt.mul (Cli.TransactionCommand.concurrency t)
            (Cli.TransactionCommand.process t) = count) as Hcount
    by (by apply GoInt.wrap_in_range).
  assert (exists cmds,
            mapM (Cli.TransactionCommand.spawn t)
              (Cli.upto (Cli.TransactionCommand.process t)) = Some cmds)
    as [cmds Hcmds].
  { apply mapM_is_Some, Forall_forall. intros i _. simpl.
    unfold Cli.TransactionCommand.spawn, GoInt.quot.
    destruct (Z.eqb_spec (Cli.TransactionCommand.process t) 0); [lia|].
    by eexists. }
  unfold r, Cli.TransactionCommand.RunE.
  destruct (Z.eqb_spec (Cli.TransactionCommand.process t) 1); [lia|].
  rewrite Hcount. fold split call. rewrite Hcmds.
  destruct call as [w1 [e|]]; simpl.
  - split; [by exists []|]. split; [|done].
    by intros e' [= <-].
  - split; [|split; [done|]].
    + destruct (Fanout.orch_run_trace CmdRun cmds sched
                  {| Cli.o_world := w1;
                     Cli.stages := replicate (List.length cmds) Cli.Created;
                     Cli.trace := [split]; Cli.o_proc := Cli.Alive |})
        as (rest & Htrace & Hrest).
      exists rest. split; [|done]. unfold Cli.orchestrate. by rewrite Htrace.
    + intros _. by exists cmds.
Qed.

Lemma C7_split_once_before_spawn_witness :
  let refused := Cli.TransactionCommand.RunE Demo.NewTransaction Demo.SplitTxRefused
                   tt Demo.Encode Demo.Create Demo.Getpid Demo.CmdRun four
                   [0; 1; 2; 3]%nat 0%nat in
  let accepted := Cli.TransactionCommand.RunE Demo.NewTransaction Demo.SplitTx
                    tt Demo.Encode Demo.Create Demo.Getpid Demo.CmdRun four
                    [0; 1; 0]%nat 0%nat in
  refused = Cli.Failed 0%nat [Cli.EvSplit "10.0.0.7:37101" "100000000" 80]
              "connection refused"%string /\
  exists rest,
    Cli.ran_trace accepted = Cli.EvSplit "10.0.0.7:37101" "100000000" 80 :: rest /\
    Forall (fun ev => Cli.is_split ev = false) rest.
Proof.
  intros refused accepted.
  assert (GoInt.in_range (20 * 4)) as Hr
    by (unfold GoInt.in_range, GoInt.min_int, GoInt.max_int; lia).
  split.
  - apply (C7_split_once_before_spawn Demo.NewTransaction Demo.SplitTxRefused
             tt Demo.Encode Demo.Create Demo.Getpid Demo.CmdRun four
             [0; 1; 2; 3]%nat 0%nat ltac:(simpl; lia) Hr).
    reflexivity.
  - apply (C7_split_once_before_spawn Demo.NewTransaction Demo.SplitTx
             tt Demo.Encode Demo.Create Demo.Getpid Demo.CmdRun four
             [0; 1; 0]%nat 0%nat ltac:(simpl; lia) Hr).
Defined.

(** C10. [generate] of the [contract] subcommand builds its generator
    configuration with host ["127.0.0.1:37101"] and length ["1024"]
    whatever the [--host] and [--length] flags hold: changing the two
    flags changes neither the configuration nor any single-process run.
    [spawn] builds the same arguments whatever the host, none of them
    names [--host], and a child invoked with them runs with the
    default host. *)
Theorem C10_host_length_ignored {Tx World : Type}
  (NewContract : Cli.Config -> result Cli.error (Cli.Generator Tx World))
  (Encode : World -> Z -> Tx -> World * option Cli.error)
  (Create : World -> string -> string -> World * option Cli.error)
  (Getpid : World -> Z)
  (CmdRun : World -> list string -> World * option Cli.error)
  (c : Cli.ContractCommand.t) (h : string) (l : Z) (sched : list nat) (w : World) :
  let c' := Cli.ContractCommand.with_host h (Cli.ContractCommand.with_length l c) in
  Cli.Host (Cli.ContractCommand.config c') = "127.0.0.1:37101"%string /\
  Cli.Args (Cli.ContractCommand.config c') !! "length"%string = Some "1024"%string /\
  Cli.ContractCommand.config c' = Cli.ContractCommand.config c /\
  Cli.ContractCommand.generate NewContract Encode Create Getpid c' sched w =
  Cli.ContractCommand.generate NewContract Encode Create Getpid c sched w /\
  (Cli.ContractCommand.process c = 1 ->
   Cli.ContractCommand.RunE NewContract Encode Create Getpid CmdRun c' sched w =
   Cli.ContractCommand.RunE NewContract Encode Create Getpid CmdRun c sched w) /\
  (forall i, Cli.ContractCommand.spawn (Cli.ContractCommand.with_host h c) i =
             Cli.ContractCommand.spawn c i) /\
  (forall i argv,
     Cli.ContractCommand.spawn c i = Some argv ->
     ("--host"%string ∉ Children.flag_names (tail argv)) /\
     (forall k, Cli.ContractCommand.invoked argv = Some k ->
                Cli.ContractCommand.host k = "127.0.0.1:37101"%string)).
Proof.
  intros c'. split; [done|]. split; [done|]. split; [done|]. split; [done|].
  split.
  { intros Hp. unfold Cli.ContractCommand.RunE. simpl. by rewrite Hp. }
  split; [done|].
  intros i argv Hspawn. unfold Cli.ContractCommand.spawn in Hspawn.
  destruct (GoInt.quot _ _) as [q|]; [|done]. injection Hspawn as <-.
  split.
  - simpl. intros Hin.
    repeat (apply elem_of_cons in Hin as [Hin|Hin]; [discriminate Hin|]).
    by apply elem_of_nil in Hin.
  - intros k Hk. by apply (Children.invoked_host c q i k).
Qed.

Lemma C10_host_length_ignored_witness :
  let elsewhere := Cli.ContractCommand.with_host "10.0.0.7:37101"
                     (Cli.ContractCommand.with_length 64 million) in
  Cli.ContractCommand.config elsewhere = Cli.ContractCommand.config million /\
  Cli.ContractCommand.RunE Demo.NewContract Demo.Encode Demo.Create Demo.Getpid
    Demo.CmdRun elsewhere [0; 1]%nat 0%nat =
  Cli.ContractCommand.RunE Demo.NewContract Demo.Encode Demo.Create Demo.Getpid
    Demo.CmdRun million [0; 1]%nat 0%nat /\
  (forall k, Cli.ContractCommand.invoked (Children.child_args five 200000 2) = Some k ->
             Cli.ContractCommand.host k = "127.0.0.1:37101"%string).
Proof.
  intros elsewhere.
  pose proof (C10_host_length_ignored Demo.NewContract Demo.Encode Demo.Create
                Demo.Getpid Demo.CmdRun million "10.0.0.7:37101" 64 [0; 1]%nat 0%nat)
    as (_ & _ & Hcfg & _ & Hrun & _).
  pose proof (C10_host_length_ignored Demo.NewContract Demo.Encode Demo.Create
                Demo.Getpid Demo.CmdRun five "" 0 [] 0%nat)
    as (_ & _ & _ & _ & _ & _ & Hchild).
  split; [exact Hcfg|]. split; [exact (Hrun eq_refl)|].
  exact (proj2 (Hchild 2 _ eq_refl)).
Defined.

(** * Further properties of the worker pool *)
Module Workers.

Import Cli Pool.
Local Open Scope Z_scope.

Section Isolation.

Context {Tx World : Type}.
Variables (total : Z) (g : Generator Tx World).
Variable Encode : World -> Z -> Tx -> World * option error.

(** What the generator is known to produce for each worker. *)
Variable Made : Z -> Tx -> Prop.
Hypothesis generate_made :
  forall w i w' tx, Generate g w i = (w', Ok tx) -> Made i tx.

Let consume := encode_consume Encode.

(** Every record of shard [i] was generated for worker [i]. *)
Definition routed (e : engine Tx World) : Prop :=
  forall i sh, shards e !! i = Some sh -> Forall (Made (Z.of_nat i)) sh.

Lemma step_routed e e' i :
  routed e -> step total g consume i e = Some e' -> routed e'.
Proof.
  unfold step. intros He Hs.
  destruct (proc e); [|done].
  destruct (workers e !! i) as [w|]; [|done].
  destruct (returned w); [done|]. injection Hs as <-.
  unfold iteration, consume, encode_consume.
  destruct (Generate g (world e) (Z.of_nat i)) as [w1 [tx|err]] eqn:Hg; [|done].
  destruct (Encode w1 (Z.of_nat i) tx) as [w2 [err|]]; [done|].
  destruct (progress _ (inc e) (logs e)) as [inc' logs'].
  intros j sh. simpl. rewrite Nat2Z.id.
  destruct (decide (i = j)) as [<-|Hne].
  - rewrite list_lookup_alter_eq.
    destruct (shards e !! i) as [old|] eqn:Hold; [|done].
    intros [= <-]. apply Forall_app. split; [by apply He|].
    constructor; [|constructor]. by eapply generate_made.
  - rewrite list_lookup_alter_ne by done. apply He.
Qed.

Lemma run_routed sched e : routed e -> routed (run total g consume sched e).
Proof.
  revert e. induction sched as [|i rest IH]; intros e He; simpl; [done|].
  apply IH. destruct (step total g consume i e) as [e'|] eqn:Hs; simpl; [|done].
  by eapply step_routed.
Qed.

Lemma start_routed n w0 lg : routed (start n w0 (replicate (Z.to_nat n) []) lg).
Proof.
  intros i sh Hsh. unfold start in Hsh; simpl in Hsh.
  by apply lookup_replicate in Hsh as [-> _].
Qed.

End Isolation.

Section AppendOnly.

Context {Tx World : Type}.
Variables (total : Z) (g : Generator Tx World).
Variable Encode : World -> Z -> Tx -> World * option error.

Let consume := encode_consume Encode.

Lemma step_shards_grow e e' i j sh :
  step total g consume i e = Some e' -> shards e !! j = Some sh ->
  exists sh', shards e' !! j = Some sh' /\ sh `prefix_of` sh'.
Proof.
  unfold step. intros Hs Hsh.
  destruct (proc e); [|done].
  destruct (workers e !! i) as [w|]; [|done].
  destruct (returned w); [done|]. injection Hs as <-.
  unfold iteration, consume, encode_consume.
  destruct (Generate g (world e) (Z.of_nat i)) as [w1 [tx|err]]; [|by exists sh].
  destruct (Encode w1 (Z.of_nat i) tx) as [w2 [err|]]; [by exists sh|].
  destruct (progress _ (inc e) (logs e)) as [inc' logs']. simpl.
  rewrite Nat2Z.id. destruct (decide (i = j)) as [<-|Hne].
  - exists (sh ++ [tx]). rewrite list_lookup_alter_eq, Hsh.
    split; [done|]. by apply prefix_app_r.
  - exists sh. by rewrite list_lookup_alter_ne.
Qed.

Lemma run_shards_grow sched e j sh :
  shards e !! j = Some sh ->
  exists sh', shards (run total g consume sched e) !! j = Some sh' /\
              sh `prefix_of` sh'.
Proof.
  revert e sh. induction sched as [|i rest IH]; intros e sh Hsh; simpl.
  - by exists sh.
  - destruct (step total g consume i e) as [e'|] eqn:Hs; simpl; [|by apply IH].
    destruct (step_shards_grow e e' i j sh Hs Hsh) as (sh1 & Hsh1 & Hp1).
    destruct (IH e' sh1 Hsh1) as (sh2 & Hsh2 & Hp2).
    exists sh2. split; [done|]. by etrans.
Qed.

End AppendOnly.

(** Sums over the workers. *)
Definition total_of (f : worker -> Z) (ws : list worker) : Z :=
  foldr (fun w acc => f w + acc) 0 ws.

Lemma total_of_insert f ws i w x :
  ws !! i = Some w -> total_of f (<[i := x]> ws) = total_of f ws - f w + f x.
Proof.
  revert i. induction ws as [|a ws IH]; intros [|i] Hi; simpl in *; try done.
  - injection Hi as ->. lia.
  - rewrite (IH i Hi). lia.
Qed.

Lemma total_of_replicate f n w :
  total_of f (replicate n w) = Z.of_nat n * f w.
Proof. induction n as [|n IH]; simpl; [lia|]. rewrite IH. lia. Qed.


Lemma total_of_bounds f lo hi ws :
  Forall (fun w => lo <= f w <= hi) ws ->
  Z.of_nat (List.length ws) * lo <= total_of f ws <= Z.of_nat (List.length ws) * hi.
Proof.
  induction 1 as [|w ws Hw Hws IH]; simpl; [lia|].
  rewrite Nat2Z.inj_succ. lia.
Qed.

Section Termination.

Context {Tx World : Type}.
Variables (total : Z) (g : Generator Tx World) (consume : Consume Tx World).
Hypothesis total_int : total <= GoInt.max_int.

(** The number of loop iterations the workers perform under a schedule. *)
Fixpoint iterations (sched : list nat) (e : engine Tx World) : nat :=
  match sched with
  | [] => O
  | i :: rest =>
      match step total g consume i e with
      | Some e' => S (iterations rest e')
      | None => iterations rest e
      end
  end.

(** The iterations a worker may still perform. *)
Definition remaining (w : worker) : Z :=
  if returned w then 0 else Z.max 1 total - count w.

Definition potential (e : engine Tx World) : Z :=
  match proc e with
  | Alive => total_of remaining (workers e)
  | Exited _ => 0
  end.

Lemma remaining_bounds (e : engine Tx World) :
  counts_ok total e ->
  Forall (fun w => 0 <= remaining w <= Z.max 1 total) (workers e).
Proof.
  intros He. eapply Forall_impl; [exact He|]. simpl.
  intros w [Hc Hlt]. unfold remaining. destruct (returned w); lia.
Qed.

Lemma step_potential (e e' : engine Tx World) i :
  counts_ok total e -> step total g consume i e = Some e' ->
  potential e' + 1 <= potential e.
Proof.
  intros He Hs. pose proof (remaining_bounds e He) as Hrem.
  unfold step in Hs. unfold potential at 2.
  destruct (proc e); [|done].
  destruct (workers e !! i) as [w|] eqn:Hw; [|done].
  destruct (returned w) eqn:Hr; [done|]. injection Hs as <-.
  pose proof (proj1 (Forall_lookup _ _) He i w Hw) as Hwok.
  pose proof (total_of_bounds remaining 0 (Z.max 1 total) _ Hrem) as Hall.
  assert (remaining w = Z.max 1 total - count w) as Hrw
    by (unfold remaining; by rewrite Hr).
  assert (total_of remaining (workers e) =
          total_of remaining (<[i := w]> (workers e))) as Hsame
    by (by rewrite list_insert_id).
  pose proof (total_of_insert remaining (workers e) i w) as Hins.
  destruct Hwok as [Hc Hlt]. specialize (Hlt Hr).
  assert (1 <= total_of remaining (workers e)) as Hpos.
  { pose proof (total_of_insert remaining (workers e) i w
                  {| count := count w; returned := true |} Hw) as Hz.
    assert (Forall (fun w => 0 <= remaining w <= Z.max 1 total)
              (<[i := {| count := count w; returned := true |}]> (workers e))) as Hf.
    { apply Forall_insert; [done|]. unfold remaining; simpl. lia. }
    pose proof (total_of_bounds remaining 0 (Z.max 1 total) _ Hf).
    change (remaining {| count := count w; returned := true |}) with 0 in Hz.
    lia. }
  unfold iteration, potential.
  destruct (Generate g (world e) (Z.of_nat i)) as [w1 [tx|err]]; simpl; [|lia].
  destruct (consume (Z.of_nat i) tx w1 (shards e)) as [[w2 sh] [|err|msg]];
    simpl; [| |lia].
  - rewrite (next_count total total_int w (conj Hc (fun _ => Hlt)) Hr).
    destruct (progress (count w + 1) (inc e) (logs e)) as [inc' logs']. simpl.
    rewrite (Hins _ Hw), Hrw. unfold remaining at 2. simpl.
    destruct (total <=? count w + 1); lia.
  - rewrite (Hins _ Hw), Hrw. unfold remaining at 2. simpl. lia.
Qed.

Lemma potential_nonneg (e : engine Tx World) : counts_ok total e -> 0 <= potential e.
Proof.
  intros He. unfold potential. destruct (proc e); [|lia].
  pose proof (total_of_bounds remaining 0 (Z.max 1 total) _ (remaining_bounds e He)).
  lia.
Qed.

Lemma iterations_potential sched (e : engine Tx World) :
  counts_ok total e -> Z.of_nat (iterations sched e) <= potential e.
Proof.
  revert e. induction sched as [|i rest IH]; intros e He; simpl.
  - by apply potential_nonneg.
  - destruct (step total g consume i e) as [e'|] eqn:Hs; [|by apply IH].
    pose proof (step_potential e e' i He Hs).
    pose proof (IH e' (step_counts_ok total g consume total_int e e' i He Hs)).
    lia.
Qed.






End Termination.

Section Swallowed.

Context {Tx World : Type}.
Variables (total : Z) (g : Generator Tx World) (consume : Consume Tx World).

(** The generator succeeds and the callback returns an error, always. *)
Hypothesis gen_ok : never_fails g.
Hypothesis always_err :
  forall i tx w sh, exists w' sh' err, consume i tx w sh = (w', sh', ConsumeErr err).

Definition stopped_at_zero : worker := {| count := 0; returned := true |}.

(** Nothing is counted and nothing is logged. *)
Definition quiet (lg : list string) (e : engine Tx World) : Prop :=
  proc e = Alive /\ logs e = lg /\
  Forall (fun w => count w = 0) (workers e).

Lemma step_refused (e : engine Tx World) i w :
  proc e = Alive -> workers e !! i = Some w -> returned w = false ->
  exists e', step total g consume i e = Some e' /\
             proc e' = Alive /\ logs e' = logs e /\
             workers e' = <[i := {| count := count w; returned := true |}]> (workers e).
Proof.
  intros Ha Hw Hr. unfold step. rewrite Ha, Hw, Hr. unfold iteration.
  pose proof (gen_ok (world e) (Z.of_nat i)) as Hg.
  destruct (Generate g (world e) (Z.of_nat i)) as [w1 [tx|err]]; [|done].
  destruct (always_err (Z.of_nat i) tx w1 (shards e)) as (w2 & sh & err & ->).
  by eexists.
Qed.

Lemma step_quiet lg (e e' : engine Tx World) i :
  quiet lg e -> step total g consume i e = Some e' -> quiet lg e'.
Proof.
  intros (Ha & Hl & Hz) Hs. pose proof Hs as Hs'. unfold step in Hs'.
  rewrite Ha in Hs'.
  destruct (workers e !! i) as [w|] eqn:Hw; [|done].
  destruct (returned w) eqn:Hr; [done|].
  destruct (step_refused e i w Ha Hw Hr) as (e1 & He1 & Ha1 & Hl1 & Hw1).
  rewrite Hs in He1. injection He1 as <-.
  split; [done|]. split; [congruence|].
  rewrite Hw1. apply Forall_insert; [done|]. simpl.
  exact (proj1 (Forall_lookup _ _) Hz i w Hw).
Qed.

Lemma run_quiet lg sched (e : engine Tx World) :
  quiet lg e -> quiet lg (run total g consume sched e).
Proof.
  revert e. induction sched as [|i rest IH]; intros e He; simpl; [done|].
  apply IH. destruct (step total g consume i e) as [e'|] eqn:Hs; simpl; [|done].
  by eapply step_quiet.
Qed.

Lemma each_once_workers m j (e : engine Tx World) :
  proc e = Alive ->
  workers e = replicate j stopped_at_zero ++ replicate m fresh ->
  workers (run total g consume (seq j m) e) = replicate (j + m) stopped_at_zero /\
  proc (run total g consume (seq j m) e) = Alive.
Proof.
  revert j e. induction m as [|m IH]; intros j e Ha Hws.
  - simpl. rewrite Hws, Nat.add_0_r. simpl. by rewrite app_nil_r.
  - assert (workers e !! j = Some fresh) as Hj.
    { rewrite Hws, lookup_app_r by (rewrite length_replicate; lia).
      by rewrite length_replicate, Nat.sub_diag. }
    destruct (step_refused e j fresh Ha Hj eq_refl) as (e1 & Hs & Ha1 & _ & Hw1).
    cbn [seq run]. rewrite Hs. simpl.
    destruct (IH (S j) e1 Ha1) as [Hw' Hp'].
    + rewrite Hw1, Hws.
      replace j with (List.length (replicate j stopped_at_zero) + 0)%nat at 1
        by (rewrite length_replicate; lia).
      rewrite insert_app_r.
      by rewrite (replicate_S_end j), <- app_assoc.
    + split; [|done]. rewrite Hw'. f_equal. lia.
Qed.

End Swallowed.

End Workers.

(** * Further properties of the quota *)
Module Quota.

Import Cli.
Local Open Scope Z_scope.

(** Up to an even split of 7626007 the quota is the floor of eleven
    tenths of it, or one more: the product with [float32(1.1)] is never
    rounded below that floor and never reaches two above it. *)
Lemma scale_1_1_near q :
  0 <= q <= 7626007 ->
  exists n, Float32.scale_1_1 q = Some n /\ 11 * q / 10 <= n <= 11 * q / 10 + 1.
Proof.
  intros Hq. unfold Float32.scale_1_1, Float32.mul.
  rewrite Float32.of_int_small by lia. cbn [Float32.fm Float32.fe].
  change (0 + Float32.fe Float32.c1_1) with (-23).
  pose proof (Float32.c1_1_product q) as Hprod.
  set (n := q * Float32.fm Float32.c1_1) in *.
  pose proof (Z.div_mod (11 * q) 10 ltac:(lia)) as Hdm.
  pose proof (Z.mod_pos_bound (11 * q) 10 ltac:(lia)) as Hr.
  set (a := 11 * q / 10) in *.
  set (r := (11 * q) mod 10) in *. clearbody n a r.
  assert (0 <= n) as Hn0 by lia.
  assert (a * 2 ^ 23 <= n) as Hlo by lia.
  assert (forall v, a <= v <= a + 1 -> GoInt.in_rangeb v = true) as Hrange.
  { intros v Hv. apply GoInt.in_rangeb_spec.
    unfold GoInt.in_range, GoInt.min_int, GoInt.max_int. lia. }
  unfold Float32.round. destruct (Z.leb_spec 0 n); [|lia].
  unfold Float32.round_pos. destruct (Z.ltb_spec n (2 ^ 24)) as [Hsmall|Hbig].
  - unfold Float32.to_int; cbn [Float32.fm Float32.fe].
    change (0 <=? -23) with false; cbv iota. change (- -23) with 23.
    rewrite Z.quot_div_nonneg by lia.
    rewrite (Float32.div_between n (2 ^ 23) a) by lia.
    rewrite Hrange by lia. exists a. split; [done|lia].
  - set (k := Z.log2 n - 23).
    assert (1 <= k <= 22) as Hk.
    { assert (24 <= Z.log2 n) by (apply Z.log2_le_pow2; lia).
      assert (Z.log2 n < 46) by (apply Z.log2_lt_pow2; lia). lia. }
    assert (2 ^ (23 - k) * 2 ^ k = 2 ^ 23) as Hpp
      by (rewrite <- Z.pow_add_r by lia; f_equal; lia).
    assert (0 < 2 ^ k <= 2 ^ 22) as Hp
      by (split; [apply Z.pow_pos_nonneg; lia | apply Z.pow_le_mono_r; lia]).
    assert (0 < 2 ^ (23 - k)) as Hp' by (apply Z.pow_pos_nonneg; lia).
    assert (a * 2 ^ (23 - k) <= Float32.rne n k) as Hm1.
    { apply Float32.rne_lower; [lia|]. rewrite <- Z.mul_assoc, Hpp. exact Hlo. }
    assert (Float32.rne n k < (a + 2) * 2 ^ (23 - k)) as Hm2.
    { apply Float32.rne_upper; [lia|].
      rewrite Z.mul_sub_distr_r, <- !Z.mul_assoc, Hpp. lia. }
    unfold Float32.to_int; cbn [Float32.fm Float32.fe].
    destruct (Z.leb_spec 0 (-23 + k)); [lia|].
    replace (- (-23 + k)) with (23 - k) by lia.
    rewrite Z.quot_div_nonneg by nia.
    set (v := Float32.rne n k / 2 ^ (23 - k)).
    assert (a <= v <= a + 1) as Hv.
    { split.
      - apply Z.div_le_lower_bound; lia.
      - assert (v < a + 2) by (apply Z.div_lt_upper_bound; lia). lia. }
    rewrite (Hrange v Hv). by exists v.
Qed.

(** The per-worker quota of a run: never below the floor of eleven
    tenths of the even split, at most one above it. *)
Lemma per_worker_quota_near total concurrency :
  0 <= total -> 0 < concurrency -> total / concurrency <= 7626007 ->
  exists n, per_worker_quota total concurrency = Quota n /\
            11 * (total / concurrency) / 10 <= n <= 11 * (total / concurrency) / 10 + 1.
Proof.
  intros Ht Hc Hq. unfold per_worker_quota, GoInt.quot.
  destruct (Z.eqb_spec concurrency 0); [lia|].
  rewrite Z.quot_div_nonneg by lia.
  pose proof (Z.div_pos total concurrency Ht Hc) as Hq0.
  rewrite GoInt.wrap_in_range
    by (unfold GoInt.in_range, GoInt.min_int, GoInt.max_int; lia).
  destruct (scale_1_1_near (total / concurrency) ltac:(lia)) as (m & -> & Hm).
  by exists m.
Qed.

End Quota.

(** * Further properties of the single-process path *)
Module Stops.

Import Cli Pool Single.
Local Open Scope Z_scope.

Section Generate.

Context {Tx World : Type}.
Variable Encode : World -> Z -> Tx -> World * option error.
Variable Create : World -> string -> string -> World * option error.
Variable Getpid : World -> Z.

(** The files made before a creation fails are the first of the list. *)
Lemma create_files_prefix dir names w w' made err :
  create_files Create dir names w = (w', made, err) ->
  made `prefix_of` names /\
  (is_Some err -> (List.length made < List.length names)%nat).
Proof.
  revert w w' made err. induction names as [|n rest IH]; intros w w' made err; simpl.
  - intros [= _ <- <-]. split; [done|]. by intros [? ?].
  - destruct (Create w dir n) as [w1 [e|]].
    + intros [= _ <- <-]. split; [apply prefix_nil|]. simpl. lia.
    + destruct (create_files Create dir rest w1) as [[w2 made'] err'] eqn:Hrest.
      intros [= _ <- <-]. destruct (IH _ _ _ _ Hrest) as [Hp Hl].
      split; [by apply prefix_cons|]. intros He. specialize (Hl He). simpl. lia.
Qed.

(** A run of [generate] that returns an error has written no
    transaction and logged nothing: the files made before the failure
    are the first shard files of the process, and they are empty. *)
Lemma generate_with_error what prefix ctor total concurrency child output sched w r msg :
  generate_with Encode Create Getpid what prefix ctor
    total concurrency child output sched w = Some r ->
  ret r = RetErr msg ->
  files r `prefix_of` shard_names prefix child concurrency /\
  List.length (contents r) = List.length (files r) /\
  Forall (fun sh => sh = []) (contents r) /\
  printed r = [].
Proof.
  unfold generate_with, stopped. intros Hr Hret.
  assert (forall (made : list string),
            Forall (fun sh : list Tx => sh = []) ((fun _ => []) <$> made)) as Hempty
    by (intros made; induction made; csimpl; by constructor).
  destruct ctor as [g|e].
  2: { injection Hr as <-. simpl. repeat split; try done. apply prefix_nil. }
  destruct (Init g w) as [w1 [e|]].
  { injection Hr as <-. simpl. repeat split; try done. apply prefix_nil. }
  destruct (concurrency <? 0); [by injection Hr as <-|].
  destruct (create_files Create output _ w1) as [[w2 made] [e|]] eqn:Hmade.
  { injection Hr as <-. simpl.
    destruct (create_files_prefix _ _ _ _ _ _ Hmade) as [Hp _].
    split; [done|]. split; [by rewrite length_fmap|]. by split. }
  destruct (per_worker_quota total concurrency);
    [|by injection Hr as <-..].
  destruct (Consumer _ _ _ _ _ _ _ _) as [e|]; [|done].
  injection Hr as <-. simpl in Hret. by destruct (proc e).
Qed.

(** Without workers [generate] cannot proceed: with [concurrency <= 0]
    a run whose generator is built and initialised panics (exit status
    2) before it creates any file, under every schedule. *)
Lemma generate_with_no_workers what prefix g total concurrency child output sched w :
  concurrency <= 0 -> (Init g w).2 = None ->
  exists r,
    generate_with Encode Create Getpid what prefix (Ok g)
      total concurrency child output sched w = Some r /\
    ret r = Exit 2 /\ files r = [] /\ contents r = [].
Proof.
  intros Hc Hi. unfold generate_with, stopped.
  destruct (Init g w) as [w1 [e|]]; [done|].
  destruct (Z.ltb_spec concurrency 0); [by eexists|].
  assert (concurrency = 0) as -> by lia. simpl.
  unfold per_worker_quota, GoInt.quot. simpl. by eexists.
Qed.

End Generate.

(** The single-process run of the [tx] subcommand with reliable
    collaborators: every run that returns has returned [nil] and left
    [max 1 n] records in each of its files [transaction.dat.NNNN],
    where [n] is the quota; and some run returns. *)
Lemma tx_run_records {Tx World Account : Type}
  (NewTransaction : Config -> result error (Generator Tx World))
  (SplitTx : World -> string -> Account -> string -> Z -> World * option error)
  (Bank : Account)
  (Encode : World -> Z -> Tx -> World * option error)
  (Create : World -> string -> string -> World * option error)
  (Getpid : World -> Z)
  (CmdRun : World -> list string -> World * option error)
  (c : TransactionCommand.t) (g : Generator Tx World) (w : World) (n : Z) :
  TransactionCommand.process c = 1 ->
  0 <= TransactionCommand.concurrency c ->
  NewTransaction (TransactionCommand.config c) = Ok g ->
  reliable Encode Create g ->
  per_worker_quota (TransactionCommand.total c) (TransactionCommand.concurrency c)
    = Quota n ->
  (forall sched r,
     TransactionCommand.RunE NewTransaction SplitTx Bank Encode Create Getpid
       CmdRun c sched w = Generated (Some r) ->
     ret r = RetNil /\
     dir r = TransactionCommand.output c /\
     files r = shard_names "transaction.dat." (TransactionCommand.child c)
                 (TransactionCommand.concurrency c) /\
     List.length (contents r) = Z.to_nat (TransactionCommand.concurrency c) /\
     Forall (fun sh => Z.of_nat (List.length sh) = Z.max 1 n) (contents r)) /\
  (exists sched r,
     TransactionCommand.RunE NewTransaction SplitTx Bank Encode Create Getpid
       CmdRun c sched w = Generated (Some r)).
Proof.
  intros Hp Hc Hnew Hrel Hquota.
  destruct (generate_with_records Encode Create Getpid
              "transaction" "transaction.dat." g (TransactionCommand.total c)
              (TransactionCommand.concurrency c)
              (TransactionCommand.child c) (TransactionCommand.output c) w
              n Hrel Hc Hquota) as [Hall [r Hr]].
  unfold TransactionCommand.RunE. rewrite Hp. simpl.
  unfold TransactionCommand.generate. rewrite Hnew. split.
  - intros sched r' [= Hr']. exact (Hall sched r' Hr').
  - eexists _, r. by rewrite Hr.
Qed.

End Stops.

(** * Further properties of the process fan-out *)
Module Waits.

Import Cli.
Local Open Scope string_scope.
Local Open Scope list_scope.
Local Open Scope Z_scope.

Section Orchestrator.

Context {World : Type}.
Variable CmdRun : World -> list string -> World * option error.
Variable cmds : list (list string).





(** With no child to run the parent returns [nil] at once, whatever the
    schedule, and the trace stays as it was. *)
Lemma orchestrate_nothing sched w tr :
  cmds = [] ->
  orchestrate CmdRun cmds sched w tr =
  {| o_world := w; stages := []; trace := tr; o_proc := Alive |}.
Proof.
  intros ->. unfold orchestrate.
  change (replicate (List.length []) Created) with (@nil stage).
  set (o := {| o_world := w; stages := []; trace := tr; o_proc := Alive |}).
  induction sched as [|i rest IH]; [done|].
  assert (orch_step CmdRun [] i o = None) as Hs by (by destruct i).
  cbn [orch_run]. by rewrite Hs.
Qed.

End Orchestrator.

Lemma upto_nonpos n : n <= 0 -> upto n = [].
Proof. intros Hn. unfold upto. by replace (Z.to_nat n) with O by lia. Qed.

(** The children of the [tx] subcommand. *)
Definition tx_child_args (t : TransactionCommand.t) (q i : Z) : list string :=
  [ "tx";
    "--host"; TransactionCommand.host t;
    "--total"; Strconv.Itoa q;
    "--output"; TransactionCommand.output t;
    "--concurrency"; Strconv.Itoa (TransactionCommand.concurrency t);
    "--process"; "1";
    "--child"; Strconv.Itoa i ].

Definition tx_child_command (t : TransactionCommand.t) (q i : Z)
  : TransactionCommand.t :=
  {| TransactionCommand.total := q;
     TransactionCommand.concurrency := TransactionCommand.concurrency t;
     TransactionCommand.output := TransactionCommand.output t;
     TransactionCommand.process := 1;
     TransactionCommand.child := i;
     TransactionCommand.host := TransactionCommand.host t;
     TransactionCommand.amount :=
       TransactionCommand.amount TransactionCommand.defaults |}.

Definition tx_slice (t : TransactionCommand.t) : Z :=
  GoInt.wrap (Z.quot (TransactionCommand.total t) (TransactionCommand.process t)).

Lemma tx_spawn_child_args t i :
  TransactionCommand.process t <> 0 ->
  TransactionCommand.spawn t i = Some (tx_child_args t (tx_slice t) i).
Proof.
  intros Hp. unfold TransactionCommand.spawn, GoInt.quot.
  by destruct (Z.eqb_spec (TransactionCommand.process t) 0).
Qed.

Lemma tx_invoked_child_args t q i :
  GoInt.in_range (TransactionCommand.concurrency t) ->
  GoInt.in_range q -> GoInt.in_range i ->
  TransactionCommand.invoked (tx_child_args t q i) = Some (tx_child_command t q i).
Proof.
  intros Hc Hq Hi.
  unfold TransactionCommand.invoked, tx_child_args.
  change (String.eqb "tx" "tx") with true. cbv iota.
  cbn [TransactionCommand.parse_flags].
  change (TransactionCommand.set_flag "--host" ?v ?k)
    with (Some (TransactionCommand.Build_t (TransactionCommand.total k)
                  (TransactionCommand.concurrency k) (TransactionCommand.output k)
                  (TransactionCommand.process k) (TransactionCommand.child k)
                  v (TransactionCommand.amount k))).
  cbn [mbind option_bind].
  change (TransactionCommand.set_flag "--total" ?v ?k)
    with (z ← Strconv.ParseInt v;
          Some (TransactionCommand.Build_t z
                  (TransactionCommand.concurrency k) (TransactionCommand.output k)
                  (TransactionCommand.process k) (TransactionCommand.child k)
                  (TransactionCommand.host k) (TransactionCommand.amount k))).
  rewrite (Strconv.ParseInt_Itoa _ Hq). cbn [mbind option_bind].
  change (TransactionCommand.set_flag "--output" ?v ?k)
    with (Some (TransactionCommand.Build_t (TransactionCommand.total k)
                  (TransactionCommand.concurrency k) v
                  (TransactionCommand.process k) (TransactionCommand.child k)
                  (TransactionCommand.host k) (TransactionCommand.amount k))).
  cbn [mbind option_bind].
  change (TransactionCommand.set_flag "--concurrency" ?v ?k)
    with (z ← Strconv.ParseInt v;
          Some (TransactionCommand.Build_t (TransactionCommand.total k)
                  z (TransactionCommand.output k)
                  (TransactionCommand.process k) (TransactionCommand.child k)
                  (TransactionCommand.host k) (TransactionCommand.amount k))).
  rewrite (Strconv.ParseInt_Itoa _ Hc). cbn [mbind option_bind].
  change (TransactionCommand.set_flag "--process" ?v ?k)
    with (z ← Strconv.ParseInt v;
          Some (TransactionCommand.Build_t (TransactionCommand.total k)
                  (TransactionCommand.concurrency k) (TransactionCommand.output k)
                  z (TransactionCommand.child k)
                  (TransactionCommand.host k) (TransactionCommand.amount k))).
  change (Strconv.ParseInt "1") with (Some 1). cbn [mbind option_bind].
  change (TransactionCommand.set_flag "--child" ?v ?k)
    with (z ← Strconv.ParseInt v;
          Some (TransactionCommand.Build_t (TransactionCommand.total k)
                  (TransactionCommand.concurrency k) (TransactionCommand.output k)
                  (TransactionCommand.process k) z
                  (TransactionCommand.host k) (TransactionCommand.amount k))).
  rewrite (Strconv.ParseInt_Itoa _ Hi). cbn [mbind option_bind].
  reflexivity.
Qed.

(** The totals of a list of commands, added up. *)
Definition sum_totals (kids : list ContractCommand.t) : Z :=
  foldr (fun k acc => ContractCommand.total k + acc) 0 kids.

Lemma sum_totals_same q (f : Z -> ContractCommand.t) (l : list Z) :
  (forall i, ContractCommand.total (f i) = q) ->
  sum_totals (f <$> l) = Z.of_nat (List.length l) * q.
Proof.
  intros Hf. induction l as [|a l IH]; csimpl; [lia|].
  unfold sum_totals in *. simpl. rewrite IH, Hf. lia.
Qed.

End Waits.

(** * Further properties of the [short_content] generator *)
Module ShortContent.

Local Open Scope string_scope.
Local Open Scope Z_scope.

(** A constructed generator always has a length between 1 and 3000,
    and keeps the configuration and the client it was given. *)
Lemma new_length_bounds {XClient : Type}
  (config : Contracts.ContractConfig) (client : XClient) t :
  Contracts.NewShortContent config client = Ok t ->
  1 <= Contracts.length t <= 3000 /\
  Contracts.config t = config /\ Contracts.client t = client.
Proof.
  unfold Contracts.NewShortContent. intros H.
  destruct (Contracts.Args config !! "length") as [s|]; [|done].
  destruct (Strconv.ParseUint s) as [n|]; [|done].
  injection H as <-. simpl. split; [|done].
  destruct (Z.leb_spec n 0), (Z.ltb_spec 3000 n); simpl; try lia.
  rewrite GoInt.wrap_in_range; [lia|].
  unfold GoInt.in_range, GoInt.min_int, GoInt.max_int. lia.
Qed.

Lemma Itoa_width z : 1 <= z <= 3000 -> (String.length (Strconv.Itoa z) <= 4)%nat.
Proof.
  intros Hz.
  assert (forallb (fun n => Nat.leb (String.length (Strconv.Itoa (Z.of_nat n))) 4)
            (seq 1 (Z.to_nat 3000)) = true) as Hall by (vm_compute; reflexivity).
  rewrite forallb_forall in Hall.
  specialize (Hall (Z.to_nat z)).
  rewrite Z2Nat.id in Hall by lia.
  apply Nat.leb_le, Hall, in_seq. lia.
Qed.

Section Invoke.

Context {XClient World : Type}.
Variable RandBytes : World -> Z -> World * string.

(** [lib.RandBytes(n)] returns [n] bytes. *)
Hypothesis RandBytes_length :
  forall w n, 0 <= n -> String.length (RandBytes w n).2 = Z.to_nat n.

(** The arguments of every invocation respect the limits the contract
    documents (lines 52-55): the content has the configured length, at
    most 3000 bytes, and the title at most 100. Whatever arguments the
    caller passed are dropped. *)
Lemma invoke_args_limits config (client : XClient) t address args w :
  Contracts.NewShortContent config client = Ok t ->
  let out := (Contracts.invoke_args RandBytes t address args w).2 in
  (exists title content,
     out !! "title" = Some title /\ out !! "content" = Some content /\
     String.length content = Z.to_nat (Contracts.length t) /\
     (1 <= String.length content <= 3000)%nat /\
     (String.length title <= 100)%nat) /\
  out !! "user_id" = Some "xuperos" /\
  out !! "topic" = Some address /\
  dom out = {[ "user_id"; "topic"; "title"; "content" ]} /\
  out = (Contracts.invoke_args RandBytes t address ∅ w).2.
Proof.
  intros Hnew. destruct (new_length_bounds config client t Hnew) as [Hlen _].
  unfold Contracts.invoke_args.
  pose proof (RandBytes_length w 16 ltac:(lia)) as Hsalt.
  destruct (RandBytes w 16) as [w1 salt]. simpl in Hsalt.
  pose proof (RandBytes_length w1 (Contracts.length t) ltac:(lia)) as Hcontent.
  destruct (RandBytes w1 (Contracts.length t)) as [w2 content]. simpl in Hcontent.
  simpl. split; [|split; [|split; [|split]]].
  - eexists _, content. split; [by simplify_map_eq|]. split; [by simplify_map_eq|].
    split; [done|]. split; [lia|].
    rewrite !Strconv.append_length, Hsalt. simpl.
    pose proof (Itoa_width (Contracts.length t) Hlen). lia.
  - by simplify_map_eq.
  - by simplify_map_eq.
  - rewrite !dom_insert_L, dom_empty_L. set_solver.
  - done.
Qed.

End Invoke.

End ShortContent.

(** * Further verified properties *)

(** X1. Whatever the generator and the callback do and however the
    workers interleave, a worker given a quota of at least one never
    counts more iterations than its quota. *)
Theorem X1_quota_respected {Tx World : Type}
  (total concurrency : Z) (g : Cli.Generator Tx World)
  (consume : Cli.Consume Tx World) (sched : list nat)
  (w0 : World) (sh : list (list Tx)) (lg : list string)
  (i : nat) (w : Cli.worker) :
  1 <= total <= GoInt.max_int ->
  Cli.workers (Cli.run total g consume sched (Cli.start concurrency w0 sh lg)) !! i
    = Some w ->
  0 <= Cli.count w <= total.
Proof.
  intros Ht Hw.
  pose proof (Pool.count_bound total g consume ltac:(lia) concurrency sched
                w0 sh lg i w Hw). lia.
Qed.

Lemma X1_quota_respected_witness :
  1 <= 2 <= GoInt.max_int /\
  exists w,
    Cli.workers (Cli.run 2 Demo.generator (Cli.encode_consume Demo.Encode)
                   [0; 0; 0; 1; 0]%nat (Cli.start 2 0%nat [[]; []] [])) !! 0%nat
      = Some w /\
    Cli.count w = 2 /\ 0 <= Cli.count w <= 2.
Proof.
  assert (1 <= 2 <= GoInt.max_int) as Ht by (unfold GoInt.max_int; lia).
  split; [exact Ht|]. eexists. split; [reflexivity|]. split; [reflexivity|].
  exact (X1_quota_respected 2 2 Demo.generator (Cli.encode_consume Demo.Encode)
           [0; 0; 0; 1; 0]%nat 0%nat [[]; []] [] 0%nat _ Ht eq_refl).
Defined.



(** X3. The shard files are append-only: whatever a run has written to
    a shard stays, in the same order, at the head of what any longer
    run has written to it. *)
Theorem X3_shards_append_only {Tx World : Type}
  (total : Z) (g : Cli.Generator Tx World)
  (Encode : World -> Z -> Tx -> World * option Cli.error)
  (s1 s2 : list nat) (e : Cli.engine Tx World) (j : nat) (sh : list Tx) :
  Cli.shards (Cli.run total g (Cli.encode_consume Encode) s1 e) !! j = Some sh ->
  exists sh',
    Cli.shards (Cli.run total g (Cli.encode_consume Encode) (s1 ++ s2) e) !! j
      = Some sh' /\
    sh `prefix_of` sh'.
Proof.
  intros Hsh.
  assert (Cli.run total g (Cli.encode_consume Encode) (s1 ++ s2) e =
          Cli.run total g (Cli.encode_consume Encode) s2
            (Cli.run total g (Cli.encode_consume Encode) s1 e)) as ->.
  { clear Hsh. revert e. induction s1 as [|i s1 IH]; intros e; simpl; [done|].
    apply IH. }
  by apply Workers.run_shards_grow.
Qed.

Lemma X3_shards_append_only_witness :
  exists sh',
    Cli.shards (Cli.run 3 Demo.generator (Cli.encode_consume Demo.Encode)
                  ([0; 1]%nat ++ [0; 0]%nat) (Cli.start 2 0%nat [[]; []] []))
      !! 0%nat = Some sh' /\
    [(0, 0%nat)] `prefix_of` sh'.
Proof.
  exact (X3_shards_append_only 3 Demo.generator Demo.Encode [0; 1]%nat [0; 0]%nat
           (Cli.start 2 0%nat [[]; []] []) 0%nat [(0, 0%nat)] eq_refl).
Defined.

(** X4. No cross-worker writes: every record in shard [i] is a
    transaction the generator produced for worker [i]. *)
Theorem X4_records_stay_with_worker {Tx World : Type}
  (total concurrency : Z) (g : Cli.Generator Tx World)
  (Encode : World -> Z -> Tx -> World * option Cli.error)
  (Made : Z -> Tx -> Prop) (sched : list nat) (w0 : World) (lg : list string)
  (i : nat) (sh : list Tx) :
  (forall w k w' tx, Cli.Generate g w k = (w', Ok tx) -> Made k tx) ->
  Cli.shards (Cli.run total g (Cli.encode_consume Encode) sched
                (Cli.start concurrency w0 (replicate (Z.to_nat concurrency) []) lg))
    !! i = Some sh ->
  Forall (Made (Z.of_nat i)) sh.
Proof.
  intros Hmade Hsh.
  exact (Workers.run_routed total g Encode Made Hmade sched _
           (Workers.start_routed Made concurrency w0 lg) i sh Hsh).
Qed.

Lemma X4_records_stay_with_worker_witness :
  Forall (fun tx : Demo.Tx => tx.1 = 1) [(1, 0%nat); (1, 2%nat)].
Proof.
  apply (X4_records_stay_with_worker 4 2 Demo.generator Demo.Encode
           (fun k tx => tx.1 = k) [1; 0; 1]%nat 0%nat [] 1%nat).
  - intros w k w' tx [= _ <-]. reflexivity.
  - reflexivity.
Defined.

(** X5. The pool terminates: under any schedule, and whatever fails,
    the workers together perform at most [concurrency * max 1 total]
    loop iterations. *)
Theorem X5_iterations_bounded {Tx World : Type}
  (total concurrency : Z) (g : Cli.Generator Tx World)
  (consume : Cli.Consume Tx World) (sched : list nat)
  (w0 : World) (sh : list (list Tx)) (lg : list string) :
  total <= GoInt.max_int -> 0 <= concurrency ->
  Z.of_nat (Workers.iterations total g consume sched
              (Cli.start concurrency w0 sh lg))
  <= concurrency * Z.max 1 total.
Proof.
  intros Ht Hc.
  pose proof (Workers.iterations_potential total g consume Ht sched
                (Cli.start concurrency w0 sh lg)
                (Pool.start_counts_ok total concurrency w0 sh lg)) as Hpot.
  unfold Workers.potential in Hpot.
  change (Cli.proc (Cli.start concurrency w0 sh lg)) with Cli.Alive in Hpot.
  change (Cli.workers (Cli.start concurrency w0 sh lg))
    with (replicate (Z.to_nat concurrency) Pool.fresh) in Hpot.
  rewrite Workers.total_of_replicate, Z2Nat.id in Hpot by done.
  change (Workers.remaining total Pool.fresh) with (Z.max 1 total - 0) in Hpot.
  by rewrite Z.sub_0_r in Hpot.
Qed.

Lemma X5_iterations_bounded_witness :
  (2 <= GoInt.max_int /\ 0 <= 2) /\
  Workers.iterations 2 Demo.generator (Cli.encode_consume Demo.Encode)
    [0; 1; 0; 0; 1; 1; 0; 1]%nat (Cli.start 2 0%nat [[]; []] []) = 4%nat /\
  Z.of_nat (Workers.iterations 2 Demo.generator (Cli.encode_consume Demo.Encode)
              [0; 1; 0; 0; 1; 1; 0; 1]%nat (Cli.start 2 0%nat [[]; []] []))
  <= 2 * Z.max 1 2.
Proof.
  assert (2 <= GoInt.max_int) as Ht by (unfold GoInt.max_int; lia).
  split; [split; [exact Ht|lia]|]. split; [reflexivity|].
  exact (X5_iterations_bounded 2 2 Demo.generator (Cli.encode_consume Demo.Encode)
           [0; 1; 0; 0; 1; 1; 0; 1]%nat 0%nat [[]; []] [] Ht ltac:(lia)).
Defined.



(** X7. An error returned by the [consume] callback is lost: when the
    generator succeeds and the callback always returns an error, every
    interleaving that lets [Consumer] return leaves the process alive,
    the log as it was and every count at zero; and [Consumer] does
    return once each worker has run once. *)
Theorem X7_consume_error_is_silent {Tx World : Type}
  (total concurrency : Z) (g : Cli.Generator Tx World)
  (consume : Cli.Consume Tx World)
  (w0 : World) (sh : list (list Tx)) (lg : list string) :
  0 <= concurrency ->
  Pool.never_fails g ->
  (forall i tx w s, exists w' s' err, consume i tx w s = (w', s', Cli.ConsumeErr err)) ->
  (forall sched e,
     Cli.Consumer total concurrency g consume sched w0 sh lg = Some e ->
     Cli.proc e = Cli.Alive /\ Cli.logs e = lg /\
     Forall (fun w => Cli.count w = 0 /\ Cli.returned w = true) (Cli.workers e)) /\
  is_Some (Cli.Consumer total concurrency g consume
             (seq 0 (Z.to_nat concurrency)) w0 sh lg).
Proof.
  intros Hc Hg Herr. split.
  - intros sched e He. unfold Cli.Consumer in He.
    destruct (Z.ltb_spec concurrency 0); [lia|].
    destruct (Cli.settled _) eqn:Hs; [|done]. injection He as <-.
    destruct (Workers.run_quiet total g consume Hg Herr lg sched
                (Cli.start concurrency w0 sh lg)) as (Ha & Hl & Hz).
    { split; [done|]. split; [done|]. unfold Cli.start; simpl.
      by apply Forall_replicate. }
    split; [done|]. split; [done|].
    unfold Cli.settled in Hs. rewrite Ha in Hs.
    rewrite forallb_forall in Hs.
    apply Forall_forall. intros w Hw. split.
    + exact (proj1 (Forall_forall _ _) Hz w Hw).
    + by apply Hs, list_elem_of_In.
  - unfold Cli.Consumer. destruct (Z.ltb_spec concurrency 0); [lia|].
    destruct (Workers.each_once_workers total g consume Hg Herr
                (Z.to_nat concurrency) 0 (Cli.start concurrency w0 sh lg))
      as [Hws Ha]; [done|done|].
    unfold Cli.settled. rewrite Ha, Hws.
    assert (forallb Cli.returned
              (replicate (0 + Z.to_nat concurrency) Workers.stopped_at_zero) = true)
      as ->; [|by eexists].
    apply forallb_forall. intros x Hx.
    by apply list_elem_of_In, elem_of_replicate in Hx as [-> _].
Qed.

(** A callback that refuses every transaction. *)
Definition refuse : Cli.Consume Demo.Tx Demo.World :=
  fun _ _ w s => (w, s, Cli.ConsumeErr "refused").

Lemma X7_consume_error_is_silent_witness :
  exists e,
    Cli.Consumer 10 3 Demo.generator refuse [2; 0; 1]%nat 0%nat [[]; []; []] []
      = Some e /\
    Cli.proc e = Cli.Alive /\ Cli.logs e = [] /\
    Forall (fun w => Cli.count w = 0 /\ Cli.returned w = true) (Cli.workers e).
Proof.
  eexists. split; [reflexivity|].
  apply (proj1 (X7_consume_error_is_silent 10 3 Demo.generator refuse 0%nat
                  [[]; []; []] [] ltac:(lia) ltac:(by intros ??)
                  ltac:(intros i tx w s; by eexists _, _, _)) [2; 0; 1]%nat).
  reflexivity.
Defined.

(** X8. For a total that is not negative and an even split
    [q = total / concurrency] of at most 7626007, the per-worker quota
    [int(float32(q) * 1.1)] is [floor (11 q / 10)] or one more: never
    less than the eleven tenths it aims at, never two above. *)
Theorem X8_quota_within_one (total concurrency : Z) :
  0 <= total -> 0 < concurrency -> total / concurrency <= 7626007 ->
  exists n,
    Cli.per_worker_quota total concurrency = Cli.Quota n /\
    11 * (total / concurrency) / 10 <= n <= 11 * (total / concurrency) / 10 + 1.
Proof. apply Quota.per_worker_quota_near. Qed.

Lemma X8_quota_within_one_witness :
  Cli.per_worker_quota 7000009 1 = Cli.Quota 7700010 /\
  11 * (7000009 / 1) / 10 <= 7700010 <= 11 * (7000009 / 1) / 10 + 1.
Proof.
  destruct (X8_quota_within_one 7000009 1 ltac:(lia) ltac:(lia)
              ltac:(change (7000009 / 1) with 7000009; lia)) as (n & Hq & Hn).
  assert (n = 7700010) as -> by (vm_compute in Hq; congruence).
  split; [exact Hq|exact Hn].
Defined.

(** X9. Whenever [generate] of the [contract] subcommand returns an
    error (from the constructor, from [Init] or from [os.Create]) no
    transaction has been generated or written and nothing logged: the
    files created before the failure are the first shard files of the
    process, and each is empty. *)
Theorem X9_generate_error_writes_nothing {Tx World : Type}
  (NewContract : Cli.Config -> result Cli.error (Cli.Generator Tx World))
  (Encode : World -> Z -> Tx -> World * option Cli.error)
  (Create : World -> string -> string -> World * option Cli.error)
  (Getpid : World -> Z)
  (c : Cli.ContractCommand.t) (sched : list nat) (w : World)
  (r : Cli.run_result) (msg : Cli.error) :
  Cli.ContractCommand.generate NewContract Encode Create Getpid c sched w = Some r ->
  Cli.ret r = Cli.RetErr msg ->
  Cli.files r `prefix_of`
    Cli.shard_names "short_content.dat." (Cli.ContractCommand.child c)
      (Cli.ContractCommand.concurrency c) /\
  List.length (Cli.contents r) = List.length (Cli.files r) /\
  Forall (fun sh => sh = []) (Cli.contents r) /\
  Cli.printed r = [].
Proof. apply Stops.generate_with_error. Qed.

(** The third shard file cannot be created. *)
Definition CreateThird (w : Demo.World) (d n : string)
  : Demo.World * option Cli.error :=
  (w, if String.eqb n "short_content.dat.0002" then Some "permission denied"%string
      else None).

Lemma X9_generate_error_writes_nothing_witness :
  exists r,
    Cli.ContractCommand.generate Demo.NewContract Demo.Encode CreateThird
      Demo.Getpid million [] 0%nat = Some r /\
    Cli.ret r = Cli.RetErr "open output file error: permission denied" /\
    Cli.files r = ["short_content.dat.0000"; "short_content.dat.0001"]%string /\
    Forall (fun sh => sh = []) (Cli.contents r).
Proof.
  eexists. split; [reflexivity|]. split; [reflexivity|]. split; [reflexivity|].
  exact (proj1 (proj2 (proj2
    (X9_generate_error_writes_nothing Demo.NewContract Demo.Encode CreateThird
       Demo.Getpid million [] 0%nat _ _ eq_refl eq_refl)))).
Defined.

(** X10. Without workers a single-process run cannot proceed: with
    [concurrency <= 0], once the generator is built and initialised
    the run panics (exit status 2) before it creates any file, under
    every schedule. *)
Theorem X10_no_workers_panics {Tx World : Type}
  (NewContract : Cli.Config -> result Cli.error (Cli.Generator Tx World))
  (Encode : World -> Z -> Tx -> World * option Cli.error)
  (Create : World -> string -> string -> World * option Cli.error)
  (Getpid : World -> Z)
  (CmdRun : World -> list string -> World * option Cli.error)
  (c : Cli.ContractCommand.t) (g : Cli.Generator Tx World)
  (sched : list nat) (w : World) :
  Cli.ContractCommand.process c = 1 ->
  Cli.ContractCommand.concurrency c <= 0 ->
  NewContract (Cli.ContractCommand.config c) = Ok g ->
  (Cli.Init g w).2 = None ->
  exists r,
    Cli.ContractCommand.RunE NewContract Encode Create Getpid CmdRun c sched w
      = Cli.Generated (Some r) /\
    Cli.ret r = Cli.Exit 2 /\ Cli.files r = [] /\ Cli.contents r = [].
Proof.
  intros Hp Hc Hnew Hi. unfold Cli.ContractCommand.RunE. rewrite Hp. simpl.
  unfold Cli.ContractCommand.generate. rewrite Hnew.
  destruct (Stops.generate_with_no_workers Encode Create Getpid
              "evidence" "short_content.dat." g (Cli.ContractCommand.total c)
              (Cli.ContractCommand.concurrency c) (Cli.ContractCommand.child c)
              (Cli.ContractCommand.output c) sched w Hc Hi) as (r & -> & Hr).
  by exists r.
Qed.

Definition idle : Cli.ContractCommand.t :=
  {| Cli.ContractCommand.host := "127.0.0.1:37101";
     Cli.ContractCommand.total := 1000;
     Cli.ContractCommand.concurrency := 0;
     Cli.ContractCommand.output := "./data/evidence";
     Cli.ContractCommand.process := 1;
     Cli.ContractCommand.child := 0;
     Cli.ContractCommand.length := 200 |}.

Lemma X10_no_workers_panics_witness :
  exists r,
    Cli.ContractCommand.RunE Demo.NewContract Demo.Encode Demo.Create Demo.Getpid
      Demo.CmdRun idle [0; 1]%nat 0%nat = Cli.Generated (Some r) /\
    Cli.ret r = Cli.Exit 2 /\ Cli.files r = [] /\ Cli.contents r = [] /\
    Cli.printed r = ["panic: runtime error: integer divide by zero"%string].
Proof.
  destruct (X10_no_workers_panics Demo.NewContract Demo.Encode Demo.Create
              Demo.Getpid Demo.CmdRun idle Demo.generator [0; 1]%nat 0%nat
              eq_refl ltac:(simpl; lia) eq_refl eq_refl)
    as (r & Hr & Hret & Hf & Hc).
  exists r. split; [exact Hr|]. split; [exact Hret|]. split; [exact Hf|].
  split; [exact Hc|]. by injection Hr as <-.
Defined.

(** X11. A single-process run of [tx] ([process = 1]) with reliable
    collaborators, a total that is not negative and an even split
    [q = total / concurrency] of at most 7626007: every run that
    returns has returned [nil], named its files
    [transaction.dat.NNNN] after its shard indices and left the same
    number [m] of records in each, where [m] is at least one, at least
    [floor (11 q / 10)] and at most one more than that; and some run
    returns. *)
Theorem X11_tx_shard_record_count {Tx World Account : Type}
  (NewTransaction : Cli.Config -> result Cli.error (Cli.Generator Tx World))
  (SplitTx : World -> string -> Account -> string -> Z -> World * option Cli.error)
  (Bank : Account)
  (Encode : World -> Z -> Tx -> World * option Cli.error)
  (Create : World -> string -> string -> World * option Cli.error)
  (Getpid : World -> Z)
  (CmdRun : World -> list string -> World * option Cli.error)
  (c : Cli.TransactionCommand.t) (g : Cli.Generator Tx World) (w : World) :
  Cli.TransactionCommand.process c = 1 ->
  0 < Cli.TransactionCommand.concurrency c ->
  0 <= Cli.TransactionCommand.total c ->
  Cli.TransactionCommand.total c / Cli.TransactionCommand.concurrency c <= 7626007 ->
  NewTransaction (Cli.TransactionCommand.config c) = Ok g ->
  Single.reliable Encode Create g ->
  let q := Cli.TransactionCommand.total c / Cli.TransactionCommand.concurrency c in
  let run := Cli.TransactionCommand.RunE NewTransaction SplitTx Bank Encode Create
               Getpid CmdRun c in
  exists m,
    1 <= m /\ 11 * q / 10 <= m <= Z.max 1 (11 * q / 10 + 1) /\
    (forall sched r,
       run sched w = Cli.Generated (Some r) ->
       Cli.ret r = Cli.RetNil /\
       Cli.files r = Cli.shard_names "transaction.dat." (Cli.TransactionCommand.child c)
                       (Cli.TransactionCommand.concurrency c) /\
       List.length (Cli.contents r) = Z.to_nat (Cli.TransactionCommand.concurrency c) /\
       Forall (fun sh => Z.of_nat (List.length sh) = m) (Cli.contents r)) /\
    (exists sched r, run sched w = Cli.Generated (Some r)).
Proof.
  intros Hp Hc Ht Hq Hnew Hrel q run.
  destruct (Quota.per_worker_quota_near _ _ Ht Hc Hq) as (n & Hn & Hnear).
  destruct (Stops.tx_run_records NewTransaction SplitTx Bank Encode Create Getpid
              CmdRun c g w n Hp ltac:(lia) Hnew Hrel Hn) as [Hall Hsome].
  exists (Z.max 1 n). fold q in Hnear.
  split; [lia|]. split; [lia|]. split; [|exact Hsome].
  intros sched r Hr. destruct (Hall sched r Hr) as (Hret & _ & Hf & Hl & Hrec).
  done.
Qed.

(** A hundred transactions for four workers in one process. *)
Definition hundred : Cli.TransactionCommand.t :=
  {| Cli.TransactionCommand.total := 100;
     Cli.TransactionCommand.concurrency := 4;
     Cli.TransactionCommand.output := "../data/transaction";
     Cli.TransactionCommand.process := 1;
     Cli.TransactionCommand.child := 2;
     Cli.TransactionCommand.host := "10.0.0.7:37101";
     Cli.TransactionCommand.amount := "100000000" |}.

Lemma X11_tx_shard_record_count_witness :
  exists m,
    1 <= m /\ 11 * (100 / 4) / 10 <= m <= Z.max 1 (11 * (100 / 4) / 10 + 1) /\
    (forall sched r,
       Cli.TransactionCommand.RunE Demo.NewTransaction Demo.SplitTx tt Demo.Encode
         Demo.Create Demo.Getpid Demo.CmdRun hundred sched 0%nat
         = Cli.Generated (Some r) ->
       Cli.ret r = Cli.RetNil /\
       Cli.files r = ["transaction.dat.0008"; "transaction.dat.0009";
                      "transaction.dat.0010"; "transaction.dat.0011"]%string /\
       List.length (Cli.contents r) = 4%nat /\
       Forall (fun sh => Z.of_nat (List.length sh) = m) (Cli.contents r)) /\
    (exists sched r,
       Cli.TransactionCommand.RunE Demo.NewTransaction Demo.SplitTx tt Demo.Encode
         Demo.Create Demo.Getpid Demo.CmdRun hundred sched 0%nat
         = Cli.Generated (Some r)).
Proof.
  apply (X11_tx_shard_record_count Demo.NewTransaction Demo.SplitTx tt Demo.Encode
           Demo.Create Demo.Getpid Demo.CmdRun hundred Demo.generator 0%nat).
  - reflexivity.
  - simpl. lia.
  - simpl. lia.
  - simpl. change (100 / 4) with 25. lia.
  - reflexivity.
  - exact Demo.generator_reliable.
Defined.

(** X12. With [process <= 0] no child is spawned and nothing is
    generated. [contract] returns [nil] at once, the world untouched.
    [tx] still calls [SplitTx], with the wrapped product
    [concurrency * process] as the count, returns its error if it
    fails and [nil] otherwise. *)
Theorem X12_no_process_does_nothing {Tx World Account : Type}
  (NewContract NewTransaction : Cli.Config -> result Cli.error (Cli.Generator Tx World))
  (SplitTx : World -> string -> Account -> string -> Z -> World * option Cli.error)
  (Bank : Account)
  (Encode : World -> Z -> Tx -> World * option Cli.error)
  (Create : World -> string -> string -> World * option Cli.error)
  (Getpid : World -> Z)
  (CmdRun : World -> list string -> World * option Cli.error)
  (c : Cli.ContractCommand.t) (t : Cli.TransactionCommand.t)
  (sched : list nat) (w : World) :
  let contract := Cli.ContractCommand.RunE NewContract Encode Create Getpid CmdRun c in
  let tx := Cli.TransactionCommand.RunE NewTransaction SplitTx Bank Encode Create
              Getpid CmdRun t in
  let count := GoInt.mul (Cli.TransactionCommand.concurrency t)
                 (Cli.TransactionCommand.process t) in
  let split := Cli.EvSplit (Cli.TransactionCommand.host t)
                 (Cli.TransactionCommand.amount t) count in
  let call := SplitTx w (Cli.TransactionCommand.host t) Bank
                (Cli.TransactionCommand.amount t) count in
  (Cli.ContractCommand.process c <= 0 ->
   contract sched w =
     Cli.Spawned {| Cli.o_world := w; Cli.stages := []; Cli.trace := [];
                    Cli.o_proc := Cli.Alive |} /\
   Cli.ran_outcome (contract sched w) = Some Cli.RetNil) /\
  (Cli.TransactionCommand.process t <= 0 ->
   Cli.ran_trace (tx sched w) = [split] /\
   (forall e, call.2 = Some e ->
      Cli.ran_outcome (tx sched w) = Some (Cli.RetErr e)) /\
   (call.2 = None ->
      tx sched w =
        Cli.Spawned {| Cli.o_world := call.1; Cli.stages := []; Cli.trace := [split];
                       Cli.o_proc := Cli.Alive |} /\
      Cli.ran_outcome (tx sched w) = Some Cli.RetNil)).
Proof.
  intros contract tx count split call. split.
  - intros Hp. unfold contract, Cli.ContractCommand.RunE.
    destruct (Z.eqb_spec (Cli.ContractCommand.process c) 1); [lia|].
    rewrite Waits.upto_nonpos by done.
    change (mapM (Cli.ContractCommand.spawn c) []) with (Some (@nil (list string))).
    cbv iota. by rewrite Waits.orchestrate_nothing.
  - intros Hp. unfold tx, Cli.TransactionCommand.RunE.
    destruct (Z.eqb_spec (Cli.TransactionCommand.process t) 1); [lia|].
    fold count. fold call. fold split.
    destruct call as [w1 [e|]]; simpl.
    + split; [done|]. split; [by intros ? [= <-]|done].
    + rewrite Waits.upto_nonpos by done.
      change (mapM (Cli.TransactionCommand.spawn t) []) with (Some (@nil (list string))).
      cbv iota. rewrite Waits.orchestrate_nothing by done.
      split; [done|]. split; [done|]. done.
Qed.

Definition nobody : Cli.ContractCommand.t :=
  {| Cli.ContractCommand.host := "127.0.0.1:37101";
     Cli.ContractCommand.total := 1000000;
     Cli.ContractCommand.concurrency := 20;
     Cli.ContractCommand.output := "./data/evidence";
     Cli.ContractCommand.process := 0;
     Cli.ContractCommand.child := 0;
     Cli.ContractCommand.length := 200 |}.

Definition backwards : Cli.TransactionCommand.t :=
  {| Cli.TransactionCommand.total := 1000000;
     Cli.TransactionCommand.concurrency := 20;
     Cli.TransactionCommand.output := "../data/transaction";
     Cli.TransactionCommand.process := -3;
     Cli.TransactionCommand.child := 0;
     Cli.TransactionCommand.host := "10.0.0.7:37101";
     Cli.TransactionCommand.amount := "100000000" |}.

Lemma X12_no_process_does_nothing_witness :
  Cli.ran_outcome
    (Cli.ContractCommand.RunE Demo.NewContract Demo.Encode Demo.Create Demo.Getpid
       Demo.CmdRun nobody [0; 1; 0]%nat 7%nat) = Some Cli.RetNil /\
  Cli.ran_trace
    (Cli.TransactionCommand.RunE Demo.NewTransaction Demo.SplitTx tt Demo.Encode
       Demo.Create Demo.Getpid Demo.CmdRun backwards [0; 1; 0]%nat 7%nat)
    = [Cli.EvSplit "10.0.0.7:37101" "100000000" (-60)] /\
  Cli.ran_outcome
    (Cli.TransactionCommand.RunE Demo.NewTransaction Demo.SplitTx tt Demo.Encode
       Demo.Create Demo.Getpid Demo.CmdRun backwards [0; 1; 0]%nat 7%nat)
    = Some Cli.RetNil.
Proof.
  pose proof (X12_no_process_does_nothing Demo.NewContract Demo.NewTransaction
                Demo.SplitTx tt Demo.Encode Demo.Create Demo.Getpid Demo.CmdRun
                nobody backwards [0; 1; 0]%nat 7%nat) as [Hc Ht].
  destruct (Hc ltac:(simpl; lia)) as [_ Hout].
  destruct (Ht ltac:(simpl; lia)) as (Htr & _ & Hnil).
  destruct (Hnil eq_refl) as [_ Hout'].
  split; [exact Hout|]. split; [exact Htr|exact Hout'].
Defined.



(** X14. The command line [spawn] of [tx] builds for child [i] is read
    back by the flag library as a single-process command with child
    number [i], the parent's host, output directory and concurrency
    and the slice [total / process] as its total. The amount is not
    forwarded: the child has the default ["100000000"] whatever the
    parent was given. *)
Theorem X14_tx_child_round_trip (t : Cli.TransactionCommand.t) (i : Z) :
  Cli.TransactionCommand.process t <> 0 ->
  GoInt.in_range (Cli.TransactionCommand.concurrency t) ->
  GoInt.in_range i ->
  exists argv k,
    Cli.TransactionCommand.spawn t i = Some argv /\
    Cli.TransactionCommand.invoked argv = Some k /\
    Cli.TransactionCommand.process k = 1 /\
    Cli.TransactionCommand.child k = i /\
    Cli.TransactionCommand.host k = Cli.TransactionCommand.host t /\
    Cli.TransactionCommand.output k = Cli.TransactionCommand.output t /\
    Cli.TransactionCommand.concurrency k = Cli.TransactionCommand.concurrency t /\
    Cli.TransactionCommand.total k =
      GoInt.wrap (Cli.TransactionCommand.total t ÷ Cli.TransactionCommand.process t) /\
    Cli.TransactionCommand.amount k = "100000000"%string.
Proof.
  intros Hp Hc Hi.
  exists (Waits.tx_child_args t (Waits.tx_slice t) i),
         (Waits.tx_child_command t (Waits.tx_slice t) i).
  split; [by apply Waits.tx_spawn_child_args|].
  split; [|done].
  apply Waits.tx_invoked_child_args; [done| |done].
  apply GoInt.wrap_range.
Qed.

(** A parent given an amount of its own. *)
Definition generous : Cli.TransactionCommand.t :=
  {| Cli.TransactionCommand.total := 1000003;
     Cli.TransactionCommand.concurrency := 20;
     Cli.TransactionCommand.output := "/tmp/tx";
     Cli.TransactionCommand.process := 4;
     Cli.TransactionCommand.child := 0;
     Cli.TransactionCommand.host := "10.0.0.7:37101";
     Cli.TransactionCommand.amount := "5" |}.

Lemma X14_tx_child_round_trip_witness :
  exists k,
    Cli.TransactionCommand.invoked
      ["tx"; "--host"; "10.0.0.7:37101"; "--total"; "250000"; "--output"; "/tmp/tx";
       "--concurrency"; "20"; "--process"; "1"; "--child"; "3"]%string = Some k /\
    Cli.TransactionCommand.host k = "10.0.0.7:37101"%string /\
    Cli.TransactionCommand.total k = 250000 /\
    Cli.TransactionCommand.amount k = "100000000"%string.
Proof.
  destruct (X14_tx_child_round_trip generous 3 ltac:(simpl; lia)
              ltac:(unfold GoInt.in_range, GoInt.min_int, GoInt.max_int; simpl; lia)
              ltac:(unfold GoInt.in_range, GoInt.min_int, GoInt.max_int; lia))
    as (argv & k & Hs & Hk & _ & _ & Hh & _ & _ & Ht & Ha).
  injection Hs as <-.
  exists k. split; [exact Hk|]. split; [exact Hh|]. split; [exact Ht|exact Ha].
Defined.

(** X15. The remainder of the division is dropped: in a multi-process
    run of [contract] with a total that is not negative, the totals of
    the commands the children are invoked with add up to
    [total - total mod process], which is less than the total whenever
    [process] does not divide it. *)
Theorem X15_children_totals_drop_remainder (c : Cli.ContractCommand.t) :
  Cli.ContractCommand.well_formed c ->
  1 < Cli.ContractCommand.process c ->
  0 <= Cli.ContractCommand.total c ->
  exists cmds kids,
    mapM (Cli.ContractCommand.spawn c) (Cli.upto (Cli.ContractCommand.process c))
      = Some cmds /\
    mapM Cli.ContractCommand.invoked cmds = Some kids /\
    List.length kids = Z.to_nat (Cli.ContractCommand.process c) /\
    Waits.sum_totals kids =
      Cli.ContractCommand.total c
      - Cli.ContractCommand.total c mod Cli.ContractCommand.process c /\
    (Cli.ContractCommand.total c mod Cli.ContractCommand.process c <> 0 ->
     Waits.sum_totals kids < Cli.ContractCommand.total c).
Proof.
  intros Hwf Hp Ht.
  set (p := Cli.ContractCommand.process c) in *.
  set (total := Cli.ContractCommand.total c) in *.
  exists (Children.child_args c (Children.slice c) <$> Cli.upto p),
         (Children.child_command c (Children.slice c) <$> Cli.upto p).
  split.
  { apply Fanout.mapM_total. intros i _. apply Children.spawn_child_args.
    fold p. lia. }
  split.
  { apply mapM_Some_2, Forall2_fmap, Forall_Forall2_diag, Forall_forall.
    intros i Hi. simpl.
    apply Children.invoked_child_args; [done|apply GoInt.wrap_range|].
    eapply Children.upto_in_range; [|exact Hi]. apply Hwf. }
  split; [by rewrite length_fmap, Single.upto_length|].
  assert (Waits.sum_totals (Children.child_command c (Children.slice c) <$> Cli.upto p)
          = total - total mod p) as ->.
  { rewrite (Waits.sum_totals_same (Children.slice c)) by done.
    rewrite Single.upto_length, Z2Nat.id by lia.
    rewrite Children.slice_floor by (done || apply Hwf).
    fold p total. pose proof (Z.div_mod total p ltac:(lia)). lia. }
  split; [done|].
  pose proof (Z.mod_pos_bound total p ltac:(lia)). lia.
Qed.

(** A million and three transactions for four processes. *)
Definition uneven : Cli.ContractCommand.t :=
  {| Cli.ContractCommand.host := "127.0.0.1:37101";
     Cli.ContractCommand.total := 1000003;
     Cli.ContractCommand.concurrency := 20;
     Cli.ContractCommand.output := "./data/evidence";
     Cli.ContractCommand.process := 4;
     Cli.ContractCommand.child := 0;
     Cli.ContractCommand.length := 200 |}.

Lemma X15_children_totals_drop_remainder_witness :
  exists cmds kids,
    mapM (Cli.ContractCommand.spawn uneven) (Cli.upto 4) = Some cmds /\
    mapM Cli.ContractCommand.invoked cmds = Some kids /\
    Waits.sum_totals kids = 1000000.
Proof.
  destruct (X15_children_totals_drop_remainder uneven
              ltac:(unfold Cli.ContractCommand.well_formed, GoInt.in_range,
                      GoInt.min_int, GoInt.max_int; simpl; lia)
              ltac:(simpl; lia) ltac:(simpl; lia))
    as (cmds & kids & Hc & Hk & _ & Hsum & _).
  exists cmds, kids. split; [exact Hc|]. split; [exact Hk|exact Hsum].
Defined.

(** X16. Provided [lib.RandBytes(n)] returns [n] bytes, every
    invocation built by a constructed [short_content] generator stays
    within the limits the contract documents: the content has the
    configured length, between 1 and 3000 bytes, and the title at most
    100. The arguments are the four keys [user_id], [topic], [title]
    and [content], with [user_id] fixed and the sender's address as
    the topic; the arguments the caller passed are dropped. *)
Theorem X16_invoke_within_limits {XClient World : Type}
  (RandBytes : World -> Z -> World * string)
  (config : Contracts.ContractConfig) (client : XClient)
  (t : Contracts.shortContent XClient) (address : string)
  (args : gmap string string) (w : World) :
  (forall w n, 0 <= n -> String.length (RandBytes w n).2 = Z.to_nat n) ->
  Contracts.NewShortContent config client = Ok t ->
  let out := (Contracts.invoke_args RandBytes t address args w).2 in
  (exists title content,
     out !! "title"%string = Some title /\ out !! "content"%string = Some content /\
     String.length content = Z.to_nat (Contracts.length t) /\
     (1 <= String.length content <= 3000)%nat /\
     (String.length title <= 100)%nat) /\
  out !! "user_id"%string = Some "xuperos"%string /\
  out !! "topic"%string = Some address /\
  dom out = {[ "user_id"; "topic"; "title"; "content" ]}%string /\
  out = (Contracts.invoke_args RandBytes t address ∅ w).2.
Proof. intros Hrand. by apply ShortContent.invoke_args_limits. Qed.

(** A source of bytes that are all the same letter. *)
Definition Letters (w : nat) (n : Z) : nat * string :=
  (S w, Strconv.zeros (Z.to_nat n)).

Lemma X16_invoke_within_limits_witness :
  exists t title content,
    Contracts.NewShortContent (Contracts.with_length "5000") tt = Ok t /\
    (Contracts.invoke_args Letters t "alice" {[ "content" := "mine" ]} 0%nat).2
      !! "title"%string = Some title /\
    (Contracts.invoke_args Letters t "alice" {[ "content" := "mine" ]} 0%nat).2
      !! "content"%string = Some content /\
    String.length content = 64%nat /\
    (String.length title <= 100)%nat.
Proof.
  destruct (X16_invoke_within_limits Letters (Contracts.with_length "5000") tt
              {| Contracts.length := 64; Contracts.client := tt;
                 Contracts.config := Contracts.with_length "5000" |}
              "alice" {[ "content" := "mine"%string ]} 0%nat
              ltac:(intros w n _; apply Strconv.zeros_length) eq_refl)
    as ((title & content & Ht & Hc & Hlen & _ & Htitle) & _).
  eexists _, title, content. split; [reflexivity|].
  split; [exact Ht|]. split; [exact Hc|]. split; [exact Hlen|exact Htitle].
Defined.
